(** * The e-mail assistant: polling loop, context store and draft publisher

    A shallow embedding of [base_email_assistant.py] and of the two backend
    classes [email_assistant_anthropic.py] and [email_assistant_openai.py],
    followed by the properties of the specification that were checked
    against it.

    Conventions of the embedding.
    - Python [str] is [string]; case folding is the ASCII one.
    - [self.history] (a dict) is a [gmap]; lists are lists.
    - Everything outside the process (IMAP server, generation backend,
      clock, file system writes) is an [environment]: a record of functions
      that answer each call from the log of all calls made so far, so that
      any behaviour of the outside world, failures included, is some
      environment.
    - A Python call that may raise is a computation in the monad [M]: it
      returns [Ok v] or [Raise e] together with the new state; [try/except]
      is [try_except]. *)

From Stdlib Require Import Ascii ZArith Lia.
From stdpp Require Import base option list gmap strings sorting.

Set Default Proof Using "Type".
Set Warnings "-register-all".

(** ** Python primitives *)

Module Py.

(** [c.lower()] on one ASCII character. *)
Definition lower_ascii (c : ascii) : ascii :=
  let n := nat_of_ascii c in
  if (65 <=? n)%nat && (n <=? 90)%nat then ascii_of_nat (n + 32) else c.

(** [s.lower()]. *)
Fixpoint lower (s : string) : string :=
  match s with
  | EmptyString => EmptyString
  | String c s' => String (lower_ascii c) (lower s')
  end.

(** [needle in hay] for two strings. *)
Fixpoint contains (needle hay : string) : bool :=
  String.prefix needle hay ||
  match hay with
  | EmptyString => false
  | String _ hay' => contains needle hay'
  end.

(** [s.startswith(p)]. *)
Definition startswith (s p : string) : bool := String.prefix p s.

(** Truth value of a string: [if s]. *)
Definition truthy (s : string) : bool :=
  match s with EmptyString => false | _ => true end.

(** [any(p(x) for x in l)]. *)
Fixpoint any {A} (p : A -> bool) (l : list A) : bool :=
  match l with
  | [] => false
  | x :: l' => if p x then true else any p l'
  end.

(** [l[start:]]: a negative start counts from the end, and the start is
    clamped to the bounds of the list. *)
Definition slice_from {A} (start : Z) (l : list A) : list A :=
  let len := Z.of_nat (length l) in
  let start1 := if (start <? 0)%Z then (start + len)%Z else start in
  let start2 := if (start1 <? 0)%Z then 0%Z
                else if (len <? start1)%Z then len else start1 in
  drop (Z.to_nat start2) l.

(** [l[:stop]] for a non-negative stop. *)
Definition slice_to {A} (stop : nat) (l : list A) : list A := take stop l.

(** [f"{x}"] for a value that is a string or [None]. *)
Definition str (o : option string) : string :=
  match o with Some s => s | None => "None" end.

Section Sorted.
Context {A : Type} (key : A -> string).

(** One step of the stable forward sort: [x] goes in front of the first
    element whose key is not smaller than its own. *)
Fixpoint insert_sorted (x : A) (l : list A) : list A :=
  match l with
  | [] => [x]
  | y :: l' =>
      if String.ltb (key y) (key x) then y :: insert_sorted x l'
      else x :: l
  end.

(** The stable forward sort ([list.sort]), comparing keys with [<]. *)
Fixpoint sort_stable (l : list A) : list A :=
  match l with
  | [] => []
  | x :: l' => insert_sorted x (sort_stable l')
  end.

(** [sorted(l, key=key, reverse=True)]: the list is reversed, sorted
    forward and stably, and reversed again, which is how [list.sort]
    keeps a reverse sort stable. *)
Definition sorted_reverse (l : list A) : list A :=
  rev (sort_stable (rev l)).
End Sorted.

End Py.

(** ** Data *)

(** [config.yaml], the options the assistant reads. *)
Record config := {
  cfg_email : string;
  cfg_blacklist : option (list string);
  cfg_mark_as_read : option bool;
  cfg_system_prompt : option string;
  cfg_claude_model_name : option string;
  cfg_openai_model_name : option string;
  cfg_max_tokens : option nat;
  cfg_temperature : option string;
}.

(** A parsed message ([email.message.Message]): a tree of parts.  A leaf
    carries the outcome of [get_payload(decode=True).decode()], which is
    [None] when that raises. *)
Inductive part :=
| Leaf (content_type : string) (decoded : option string)
| Multipart (content_type : string) (parts : list part).

(** A fetched message.  The From header is mandatory in a message, the
    others are optional. *)
Record message := {
  msg_from : string;
  msg_reply_to : option string;
  msg_subject : option string;
  msg_body : part;
}.

(** The dict built by [get_new_emails]. *)
Record email := {
  uid : string;
  sender : string;
  subject : option string;
  content : string;
}.

(** An entry of [self.history[sender]]. *)
Record conversation := {
  conv_timestamp : string;
  conv_subject : option string;
  conv_content : string;
  conv_response : string;
}.

(** An entry of [training_context['additional_instructions']]. *)
Record instruction := {
  inst_timestamp : string;
  inst_instruction : string;
}.

(** An entry of [training_context['example_responses']]. *)
Record example := {
  ex_timestamp : string;
  ex_sender : string;
  ex_subject : option string;
  ex_original_content : string;
  ex_response : string;
}.

(** [self.training_context]. *)
Record training := {
  system_prompt : string;
  additional_instructions : list instruction;
  example_responses : list example;
}.

(** The message composed by [save_draft]. *)
Record draft := {
  draft_to : string;
  draft_from : string;
  draft_subject : string;
  draft_content : string;
}.

(** The arguments of the backend call. *)
Record request := {
  rq_model : string;
  rq_system : string;
  rq_user : string;
  rq_max_tokens : nat;
  rq_temperature : string;
}.

(** What [anthropic.messages.create] hands back, as far as
    [generate_response] looks at it. *)
Inductive content_item :=
| TextItem (text : string)      (* hasattr(item, 'text') *)
| OtherItem.

Inductive anthropic_response :=
| ContentList (items : list content_item)
| ContentOther (repr : string)              (* str(response.content) *)
| NoContent (fallback : option string).     (* str(response.messages[0].content),
                                                None when that raises *)

(** What [openai.chat.completions.create] hands back: the contents of the
    choices, each a string as the annotation of [generate_response] has
    it. *)
Definition openai_response := list string.

Inductive backend_reply (R : Type) :=
| Replies (r : R)
| BackendRaises (err : string).
Arguments Replies {R} r.
Arguments BackendRaises {R} err.

(** A file holds a JSON document, or what an interrupted write left of
    one. [json.load] gives back the document [json.dump] was given. *)
Inductive file (A : Type) :=
| Document (d : A)
| Garbled.
Arguments Document {A} d.
Arguments Garbled {A}.

Record disk := {
  training_context_json : option (file training);
  conversation_history_json : option (file (gmap string (list conversation)));
}.

(** The outcome of [with open(path, 'w') as f: json.dump(doc, f)]. *)
Inductive write_outcome :=
| Written            (* the file now holds the document *)
| OpenFails          (* open raises, the file is as before *)
| DumpFails.         (* the file was truncated and the dump raised *)

(** ** The outside world *)

(** One call to the outside world, with its result. *)
Inductive event :=
| EvSearch (criteria : string) (result : option (list string))
| EvFetch (num : string) (result : option message)
| EvSelect (mailbox : string) (ok : bool)
| EvAppend (mailbox flags : string) (d : draft) (ok : bool)
| EvStore (uid : string) (ok : bool)
| EvAnthropic (rq : request) (r : backend_reply anthropic_response)
| EvOpenAI (rq : request) (r : backend_reply openai_response)
| EvNow (t : string)
| EvWriteTraining (d : training) (w : write_outcome)
| EvWriteHistory (d : gmap string (list conversation)) (w : write_outcome).

(** The outside world answers every call from the log of the calls before
    it. [None] and [false] mean that the call raises. *)
Record environment := {
  imap_search : list event -> string -> option (list string);
  imap_fetch : list event -> string -> option message;
  imap_select : list event -> string -> bool;
  imap_append : list event -> string -> string -> draft -> bool;
  imap_store : list event -> string -> bool;
  anthropic_create : list event -> request -> backend_reply anthropic_response;
  openai_create : list event -> request -> backend_reply openai_response;
  datetime_now : list event -> string;
  write_training : list event -> training -> write_outcome;
  write_history : list event -> gmap string (list conversation) -> write_outcome;
}.

(** ** State and computations *)

(** The assistant object and what it has done so far. *)
Record state := {
  history : gmap string (list conversation);
  training_context : training;
  files : disk;
  log : list event;
}.

Inductive result (A : Type) :=
| Ok (a : A)
| Raise (e : string).
Arguments Ok {A} a.
Arguments Raise {A} e.

Definition M (A : Type) : Type := state -> result A * state.

Definition ret {A} (a : A) : M A := fun st => (Ok a, st).

Definition raise {A} (e : string) : M A := fun st => (Raise e, st).

Definition bind {A B} (m : M A) (k : A -> M B) : M B :=
  fun st =>
    match m st with
    | (Ok a, st1) => k a st1
    | (Raise e, st1) => (Raise e, st1)
    end.

(** [try: body except Exception as e: handler(e)]. The state changes made
    by the body before it raised stay. *)
Definition try_except {A} (body : M A) (handler : string -> M A) : M A :=
  fun st =>
    match body st with
    | (Ok a, st1) => (Ok a, st1)
    | (Raise e, st1) => handler e st1
    end.

Notation "x <- m ;; k" := (bind m (fun x => k))
  (at level 100, m at next level, right associativity).
Notation "m ;;; k" := (bind m (fun _ => k))
  (at level 100, right associativity).

(** The state after some more calls to the outside world. *)
Definition logged (st : state) (evs : list event) : state :=
  {| history := history st;
     training_context := training_context st;
     files := files st;
     log := log st ++ evs |}.

Definition emit (ev : event) : M unit :=
  fun st => (Ok tt, logged st [ev]).

Definition set_history (h : gmap string (list conversation)) : M unit :=
  fun st => (Ok tt, {| history := h;
                       training_context := training_context st;
                       files := files st;
                       log := log st |}).

Definition set_training_context (t : training) : M unit :=
  fun st => (Ok tt, {| history := history st;
                       training_context := t;
                       files := files st;
                       log := log st |}).

Definition set_files (d : disk) : M unit :=
  fun st => (Ok tt, {| history := history st;
                       training_context := training_context st;
                       files := d;
                       log := log st |}).

Definition get {A} (proj : state -> A) : M A := fun st => (Ok (proj st), st).

(** A call to the outside world: the answer is read off the environment at
    the current log and the call is logged with it. *)
Definition call {A} (ask : list event -> A) (ev : A -> event) : M A :=
  fun st => let r := ask (log st) in bind (emit (ev r)) (fun _ => ret r) st.

Definition lift {A} (r : result A) : M A :=
  match r with Ok a => ret a | Raise e => raise e end.

(** ** Text constants *)

Definition nl : string := String "010" EmptyString.
Definition no_history : string := "No previous conversations found.".
Definition error_prefix : string := "Error generating".
Definition error_response : string :=
  "Error generating response. Please check the logs for details.".
Definition draft_flag : string := "\Draft".
Definition draft_folders : list string :=
  ["Drafts"; "Draft"; "[Gmail]/Drafts"; "INBOX/Drafts"].
Definition indent : string := "            ".

(** ** Message extraction (get_new_emails) *)

(** [part.get_content_type()], [part.is_multipart()] and
    [part.get_payload(decode=True).decode()]; on a multipart part the
    payload is [None] and decoding it raises. *)
Definition get_content_type (p : part) : string :=
  match p with Leaf t _ => t | Multipart t _ => t end.

Definition is_multipart (p : part) : bool :=
  match p with Leaf _ _ => false | Multipart _ _ => true end.

Definition payload_decode (p : part) : result string :=
  match p with
  | Leaf _ (Some s) => Ok s
  | Leaf _ None => Raise "UnicodeDecodeError"
  | Multipart _ _ => Raise "AttributeError"
  end.

(** [part.walk()]: the part itself, then its subparts depth first. *)
Fixpoint walk (p : part) : list part :=
  match p with
  | Leaf _ _ => [p]
  | Multipart _ ps => p :: concat (map walk ps)
  end.

(** The loop [for part in email_message.walk()], with its [break]. *)
Fixpoint scan_parts (ps : list part) (content : string) : result string :=
  match ps with
  | [] => Ok content
  | p :: ps' =>
      if String.eqb (get_content_type p) "text/plain"
      then payload_decode p
      else scan_parts ps' content
  end.

Definition extract_content (body : part) : result string :=
  if is_multipart body then scan_parts (walk body) ""
  else payload_decode body.

Section Assistant.
Context (E : environment) (cfg : config).

(** *** IMAP, clock and backend calls *)

Definition search (criteria : string) : M (list string) :=
  r <- call (fun l => imap_search E l criteria) (EvSearch criteria) ;;
  match r with Some nums => ret nums | None => raise "imap.search" end.

Definition fetch (num : string) : M message :=
  r <- call (fun l => imap_fetch E l num) (EvFetch num) ;;
  match r with Some m => ret m | None => raise "imap.fetch" end.

Definition select (mailbox : string) : M unit :=
  ok <- call (fun l => imap_select E l mailbox) (EvSelect mailbox) ;;
  if ok then ret tt else raise "imap.select".

Definition append (mailbox flags : string) (d : draft) : M unit :=
  ok <- call (fun l => imap_append E l mailbox flags d)
             (EvAppend mailbox flags d) ;;
  if ok then ret tt else raise "imap.append".

Definition store (u : string) : M unit :=
  ok <- call (fun l => imap_store E l u) (EvStore u) ;;
  if ok then ret tt else raise "imap.store".

Definition now : M string := call (datetime_now E) EvNow.

(** *** get_new_emails *)

(** [any(blacklisted in addr.lower() for blacklisted in
    self.config.get('blacklist', []))]. *)
Definition blacklisted (addr : string) : bool :=
  Py.any (fun entry => Py.contains entry (Py.lower addr))
         (default [] (cfg_blacklist cfg)).

(** The body of the [try] once the message is fetched and parsed: [Ok None]
    stands for [continue]. *)
Definition read_message (num : string) (m : message) : result (option email) :=
  let sender := msg_from m in
  if blacklisted sender then Ok None
  else if match msg_reply_to m with
          | Some reply_to => Py.truthy reply_to && blacklisted reply_to
          | None => false
          end
  then Ok None
  else match extract_content (msg_body m) with
       | Ok content =>
           Ok (Some {| uid := num; sender := sender;
                       subject := msg_subject m; content := content |})
       | Raise e => Raise e
       end.

(** One turn of the loop over the message numbers; an exception skips the
    message. *)
Definition fetch_message (num : string) : M (option email) :=
  try_except (m <- fetch num ;; lift (read_message num m))
             (fun _ => ret None).

Fixpoint fetch_loop (nums : list string) (emails : list email)
  : M (list email) :=
  match nums with
  | [] => ret emails
  | num :: nums' =>
      r <- fetch_message num ;;
      fetch_loop nums' (match r with
                        | Some e => emails ++ [e]
                        | None => emails
                        end)
  end.

Definition get_new_emails (search_criteria : string) : M (list email) :=
  nums <- search search_criteria ;;
  fetch_loop nums [].

(** *** Training context *)

Definition with_training (d : disk) (f : option (file training)) : disk :=
  {| training_context_json := f;
     conversation_history_json := conversation_history_json d |}.

Definition with_history (d : disk)
    (f : option (file (gmap string (list conversation)))) : disk :=
  {| training_context_json := training_context_json d;
     conversation_history_json := f |}.

Definition save_training_context : M unit :=
  t <- get training_context ;;
  w <- call (fun l => write_training E l t) (EvWriteTraining t) ;;
  d <- get files ;;
  match w with
  | Written => set_files (with_training d (Some (Document t)))
  | OpenFails => raise "OSError"
  | DumpFails => set_files (with_training d (Some Garbled)) ;;; raise "OSError"
  end.

Definition load_training_context : M unit :=
  d <- get files ;;
  match training_context_json d with
  | Some (Document t) => set_training_context t
  | Some Garbled => raise "JSONDecodeError"
  | None =>
      set_training_context
        {| system_prompt := default "" (cfg_system_prompt cfg);
           additional_instructions := [];
           example_responses := [] |} ;;;
      save_training_context
  end.

Definition add_instruction (text : string) : M unit :=
  t <- get training_context ;;
  ts <- now ;;
  set_training_context
    {| system_prompt := system_prompt t;
       additional_instructions :=
         additional_instructions t
           ++ [{| inst_timestamp := ts; inst_instruction := text |}];
       example_responses := example_responses t |} ;;;
  save_training_context.

Definition add_example_response (m : email) (final_response : string)
  : M unit :=
  t <- get training_context ;;
  ts <- now ;;
  set_training_context
    {| system_prompt := system_prompt t;
       additional_instructions := additional_instructions t;
       example_responses :=
         example_responses t
           ++ [{| ex_timestamp := ts; ex_sender := sender m;
                  ex_subject := subject m;
                  ex_original_content := content m;
                  ex_response := final_response |}] |} ;;;
  save_training_context.

(** *** Conversation history *)

Definition save_history : M unit :=
  h <- get history ;;
  w <- call (fun l => write_history E l h) (EvWriteHistory h) ;;
  d <- get files ;;
  match w with
  | Written => set_files (with_history d (Some (Document h)))
  | OpenFails => raise "OSError"
  | DumpFails => set_files (with_history d (Some Garbled)) ;;; raise "OSError"
  end.

Definition load_history : M unit :=
  d <- get files ;;
  match conversation_history_json d with
  | Some (Document h) => set_history h
  | Some Garbled => raise "JSONDecodeError"
  | None => set_history ∅ ;;; save_history
  end.

Definition update_history (m : email) (response : string) : M unit :=
  let sender := sender m in
  h <- get history ;;
  (if decide (is_Some (h !! sender)) then ret tt
   else set_history (<[sender := []]> h)) ;;;
  ts <- now ;;
  h <- get history ;;
  match h !! sender with
  | Some l =>
      set_history
        (<[sender := l ++ [{| conv_timestamp := ts;
                              conv_subject := subject m;
                              conv_content := content m;
                              conv_response := response |}]]> h)
  | None => raise "KeyError"
  end ;;;
  save_history.

Definition render_conversation (conv : conversation) : string :=
  "Subject: " +:+ Py.str (conv_subject conv) +:+ nl +:+
  "Original: " +:+ conv_content conv +:+ nl +:+
  "Response: " +:+ conv_response conv +:+ nl +:+ nl.

(** [history_text += ...] over [recent_history]. *)
Definition render_history (recent_history : list conversation) : string :=
  fold_left (fun history_text conv =>
               history_text +:+ render_conversation conv)
            recent_history "".

Definition _get_relevant_history
    (h : gmap string (list conversation)) (sender : string) : string :=
  match h !! sender with
  | None => no_history
  | Some l => render_history (Py.slice_from (-5) l)
  end.

(** *** Draft publishing *)

(** The [EmailMessage] that [save_draft] builds; setting its headers and
    content is taken not to raise. *)
Definition compose_draft (m : email) (response : string) : draft :=
  {| draft_to := sender m;
     draft_from := cfg_email cfg;
     draft_subject := "Re: " +:+ Py.str (subject m);
     draft_content := response |}.

(** The loop over [draft_folders]; the value is the flag [saved]. *)
Fixpoint try_folders (folders : list string) (d : draft) : M bool :=
  match folders with
  | [] => ret false
  | folder :: folders' =>
      saved <- try_except
                 (select folder ;;; append folder draft_flag d ;;; ret true)
                 (fun _ => ret false) ;;
      if saved then ret true else try_folders folders' d
  end.

Definition save_draft (m : email) (response : string) : M unit :=
  try_except
    (let d := compose_draft m response in
     saved <- try_folders draft_folders d ;;
     (if saved then ret tt
      else select "INBOX" ;;; append "INBOX" draft_flag d) ;;;
     select "INBOX")
    (fun _ => ret tt).

Definition mark_as_read (u : string) : M unit := store u.

(** *** Prompt assembly and generation *)

Definition full_system_prompt (t : training) : string :=
  let p := system_prompt t +:+ nl +:+ nl in
  match additional_instructions t with
  | [] => p
  | insts =>
      fold_left (fun p inst => p +:+ "- " +:+ inst_instruction inst +:+ nl)
                insts (p +:+ "Additional Instructions:" +:+ nl)
  end.

Definition recent_examples (examples : list example) : list example :=
  Py.slice_to 5 (Py.sorted_reverse ex_timestamp examples).

Definition render_example (ex : example) : string :=
  "Subject: " +:+ Py.str (ex_subject ex) +:+ nl +:+
  "Original: " +:+ ex_original_content ex +:+ nl +:+
  "Response: " +:+ ex_response ex +:+ nl +:+ nl.

Definition example_context (t : training) : string :=
  match example_responses t with
  | [] => ""
  | examples =>
      fold_left (fun ctx ex => ctx +:+ render_example ex)
                (recent_examples examples)
                ("Recent example responses:" +:+ nl +:+ nl)
  end.

Definition email_context (m : email) : string :=
  nl +:+ indent +:+ "From: " +:+ sender m +:+
  nl +:+ indent +:+ "Subject: " +:+ Py.str (subject m) +:+
  nl +:+ indent +:+ "Content: " +:+ content m +:+
  nl +:+ indent.

Definition full_context (t : training)
    (h : gmap string (list conversation)) (m : email) : string :=
  example_context t +:+ nl +:+ nl +:+
  "Previous conversations with this sender:" +:+ nl +:+
  _get_relevant_history h (sender m) +:+ nl +:+ nl +:+
  "New email to respond to:" +:+ nl +:+ email_context m.

(** [self.config[key]] for the model name: a missing key raises. *)
Definition required (o : option string) : M string :=
  match o with Some v => ret v | None => raise "KeyError" end.

Definition make_request (model : string) (m : email) : M request :=
  t <- get training_context ;;
  h <- get history ;;
  ret {| rq_model := model;
         rq_system := full_system_prompt t;
         rq_user := full_context t h m;
         rq_max_tokens := default 1000 (cfg_max_tokens cfg);
         rq_temperature := default "0.7" (cfg_temperature cfg) |}.

Definition item_texts (items : list content_item) : list string :=
  omap (fun item => match item with
                    | TextItem text => Some text
                    | OtherItem => None
                    end) items.

(** The Anthropic class. *)
Definition anthropic_text (r : anthropic_response) : M string :=
  match r with
  | ContentList items => ret (String.concat " " (item_texts items))
  | ContentOther repr => ret repr
  | NoContent (Some s) => ret s
  | NoContent None => raise "AttributeError"
  end.

(** The body of the [try] of [generate_response]. *)
Definition request_anthropic (m : email) : M string :=
  model <- required (cfg_claude_model_name cfg) ;;
  rq <- make_request model m ;;
  r <- call (fun l => anthropic_create E l rq) (EvAnthropic rq) ;;
  match r with
  | Replies response => anthropic_text response
  | BackendRaises err => raise err
  end.

Definition generate_response_anthropic (m : email) : M string :=
  try_except (request_anthropic m) (fun _ => ret error_response).

(** The OpenAI class. *)
Definition openai_text (r : openai_response) : M string :=
  match r with
  | choice :: _ => ret choice
  | [] => raise "IndexError"
  end.

Definition request_openai (m : email) : M string :=
  model <- required (cfg_openai_model_name cfg) ;;
  rq <- make_request model m ;;
  r <- call (fun l => openai_create E l rq) (EvOpenAI rq) ;;
  match r with
  | Replies response => openai_text response
  | BackendRaises err => raise err
  end.

Definition generate_response_openai (m : email) : M string :=
  try_except (request_openai m) (fun _ => ret error_response).

(** *** The processing loop (run) *)

Section Run.
(** The abstract method of the base class. *)
Variable generate_response : email -> M string.

(** [response and not response.startswith("Error generating")]. *)
Definition usable (response : string) : bool :=
  Py.truthy response && negb (Py.startswith response error_prefix).

(** The body of the loop over the new e-mails, with its [try]. *)
Definition process_email (m : email) : M unit :=
  try_except
    (response <- generate_response m ;;
     if usable response then
       save_draft m response ;;;
       update_history m response ;;;
       (if default true (cfg_mark_as_read cfg)
        then mark_as_read (uid m) else ret tt)
     else ret tt)
    (fun _ => ret tt).

Fixpoint process_emails (new_emails : list email) : M unit :=
  match new_emails with
  | [] => ret tt
  | m :: rest => process_email m ;;; process_emails rest
  end.

(** One turn of [while True]; the sleeps are left out. *)
Definition run_cycle (search_criteria : string) : M unit :=
  try_except
    (new_emails <- get_new_emails search_criteria ;;
     process_emails new_emails)
    (fun _ => ret tt).
End Run.

(** The loop of the OpenAI class, which overrides [run]: no test of the
    reply and no [try] around the body, so an exception ends the cycle. *)
Definition process_email_openai (m : email) : M unit :=
  response <- generate_response_openai m ;;
  save_draft m response ;;;
  update_history m response ;;;
  (if default true (cfg_mark_as_read cfg)
   then mark_as_read (uid m) else ret tt).

Fixpoint process_emails_openai (new_emails : list email) : M unit :=
  match new_emails with
  | [] => ret tt
  | m :: rest => process_email_openai m ;;; process_emails_openai rest
  end.

Definition run_cycle_openai (search_criteria : string) : M unit :=
  try_except
    (new_emails <- get_new_emails search_criteria ;;
     process_emails_openai new_emails)
    (fun _ => ret tt).
End Assistant.

(** ** The stand-alone script (email-assistant.py)

    An assistant in one file that does not use the class hierarchy. Its
    history is one list of entries that name their sender, it has no
    training context, and an exception in its loop ends the cycle. *)

Module Standalone.

Record entry := {
  entry_timestamp : string;
  entry_sender : string;
  entry_subject : option string;
  entry_response : string;
}.

(** [is_blacklisted]; the script looks at the sender only. *)
Definition is_blacklisted (blacklist : list string) (sender : string)
  : bool :=
  Py.any (fun blocked => Py.contains blocked (Py.lower sender)) blacklist.

(** The loop over the parts: [content += ...], without [break]. *)
Fixpoint scan_parts (ps : list part) (content : string) : result string :=
  match ps with
  | [] => Ok content
  | p :: ps' =>
      if String.eqb (get_content_type p) "text/plain"
      then match payload_decode p with
           | Ok s => scan_parts ps' (content +:+ s)
           | Raise e => Raise e
           end
      else scan_parts ps' content
  end.

Definition extract_content (body : part) : result string :=
  if is_multipart body then scan_parts (walk body) ""
  else payload_decode body.

Definition _get_relevant_history (h : list entry) (sender : string)
  : string :=
  String.concat (nl +:+ nl)
    (map (fun conv => "Subject: " +:+ Py.str (entry_subject conv) +:+ nl +:+
                      "Response: " +:+ entry_response conv)
         (Py.slice_from (-5)
            (filter (fun conv => entry_sender conv = sender) h))).

End Standalone.

(** The candidate that [get_new_emails] makes of a fetched message, if it
    makes one. *)
Definition candidate (cfg : config) (nm : string * message) : option email :=
  match read_message cfg nm.1 nm.2 with
  | Ok o => o
  | Raise _ => None
  end.

(** ** Observations on the log *)

(** The messages the server delivered, in the order of their fetches. *)
Fixpoint fetched_messages (evs : list event) : list (string * message) :=
  match evs with
  | [] => []
  | EvFetch num (Some m) :: evs' => (num, m) :: fetched_messages evs'
  | _ :: evs' => fetched_messages evs'
  end.

(** The last select command issued, with its outcome. *)
Fixpoint last_select (evs : list event) : option (string * bool) :=
  match evs with
  | [] => None
  | ev :: evs' =>
      match last_select evs' with
      | Some s => Some s
      | None => match ev with
                | EvSelect mailbox ok => Some (mailbox, ok)
                | _ => None
                end
      end
  end.

(** The mailbox the connection works on: that of the last select that the
    server accepted. *)
Fixpoint selected_mailbox (evs : list event) : option string :=
  match evs with
  | [] => None
  | ev :: evs' =>
      match selected_mailbox evs' with
      | Some mb => Some mb
      | None => match ev with
                | EvSelect mailbox true => Some mailbox
                | _ => None
                end
      end
  end.

(** The kinds of calls. *)
Definition is_backend_call (ev : event) : Prop :=
  match ev with
  | EvAnthropic _ _ | EvOpenAI _ _ => True
  | _ => False
  end.

Definition is_mailbox_command (ev : event) : Prop :=
  match ev with
  | EvSelect _ _ | EvAppend _ _ _ _ => True
  | _ => False
  end.

(** A draft was stored in some mailbox. *)
Definition published (evs : list event) : Prop :=
  exists mailbox flags d, In (EvAppend mailbox flags d true) evs.

(** An append was issued, whatever its outcome. *)
Definition append_issued (evs : list event) : Prop :=
  exists mailbox flags d ok, In (EvAppend mailbox flags d ok) evs.

(** The history document was written out. *)
Definition recorded (evs : list event) : Prop :=
  exists h, In (EvWriteHistory h Written) evs.

Definition record_issued (evs : list event) : Prop :=
  exists h w, In (EvWriteHistory h w) evs.

(** The message was flagged read, or the command for it was at least sent. *)
Definition flagged (u : string) (evs : list event) : Prop :=
  In (EvStore u true) evs.

Definition flag_issued (u : string) (evs : list event) : Prop :=
  exists ok, In (EvStore u ok) evs.

(** The commands of the loop over the draft folders: [folder_attempts d
    folders evs winner] holds when [evs] is a run of that loop over
    [folders] in which [winner] accepted the draft; every folder before the
    winner was tried and failed, at its select or at its append, and nothing
    follows the append the winner accepted. With no winner every folder was
    tried and failed. *)
Inductive folder_attempts (d : draft)
  : list string -> list event -> option string -> Prop :=
| attempts_done :
    folder_attempts d [] [] None
| attempts_select_fails folder folders evs winner :
    folder_attempts d folders evs winner ->
    folder_attempts d (folder :: folders)
      (EvSelect folder false :: evs) winner
| attempts_append_fails folder folders evs winner :
    folder_attempts d folders evs winner ->
    folder_attempts d (folder :: folders)
      (EvSelect folder true :: EvAppend folder draft_flag d false :: evs)
      winner
| attempts_wins folder folders :
    folder_attempts d (folder :: folders)
      [EvSelect folder true; EvAppend folder draft_flag d true]
      (Some folder).

(** What follows the loop over the draft folders: back to INBOX after a
    win; otherwise the last resort, which an exception cuts short, and then
    back to INBOX. *)
Definition after_attempts (d : draft) (winner : option string)
    (rest : list event) : Prop :=
  match winner with
  | Some _ => exists ok, rest = [EvSelect "INBOX" ok]
  | None =>
      rest = [EvSelect "INBOX" false] \/
      rest = [EvSelect "INBOX" true; EvAppend "INBOX" draft_flag d false] \/
      exists ok, rest = [EvSelect "INBOX" true;
                         EvAppend "INBOX" draft_flag d true;
                         EvSelect "INBOX" ok]
  end.

(** ** The words of the specification *)

(** Case-insensitive substring containment of a blacklist entry in an
    address. *)
Definition contains_ci (entry addr : string) : bool :=
  Py.contains (Py.lower entry) (Py.lower addr).

(** A message whose sender or reply-to contains a blacklist entry. *)
Definition matches_blacklist (bl : list string) (m : message) : Prop :=
  exists entry, In entry bl /\
    (contains_ci entry (msg_from m) = true \/
     exists reply_to, msg_reply_to m = Some reply_to /\
                      contains_ci entry reply_to = true).

Definition is_text_plain (p : part) : bool :=
  String.eqb (get_content_type p) "text/plain".

(** The body of a message in the words of the specification: the first
    plain-text part of a multipart message, empty without one; the single
    payload otherwise. *)
Definition first_plain_text (body : part) : result string :=
  if is_multipart body then
    match find is_text_plain (walk body) with
    | Some p => payload_decode p
    | None => Ok ""
    end
  else payload_decode body.

(** A list with the place of each element in it, counting from [k]. *)
Fixpoint number {A} (k : nat) (l : list A) : list (nat * A) :=
  match l with
  | [] => []
  | x :: l' => (k, x) :: number (S k) l'
  end.

(** The order a stable forward sort leaves behind when the elements come
    in by falling position: rising keys, and falling positions among equal
    keys. *)
Definition rising {A} (key : A -> string) (pos : A -> nat) (x y : A) : Prop :=
  String.ltb (key x) (key y) = true \/ (key x = key y /\ pos y < pos x).

(** The stored examples with their places, sorted as the example block
    sorts them. *)
Definition stamp (nx : nat * example) : string := ex_timestamp nx.2.

Definition sorted_with_places (examples : list example)
  : list (nat * example) :=
  Py.sorted_reverse stamp (number 0 examples).

(** Entry [i] of the stored examples goes before entry [j] in the example
    block: it has the later timestamp, or the same timestamp and the earlier
    place in storage. *)
Definition goes_before (examples : list example) (i j : nat) : Prop :=
  exists a b, examples !! i = Some a /\ examples !! j = Some b /\
    (String.ltb (ex_timestamp b) (ex_timestamp a) = true \/
     (ex_timestamp a = ex_timestamp b /\ i < j)).

(** ** Scenarios *)

Module Scenario.

Definition cfg : config :=
  {| cfg_email := "me@example.com";
     cfg_blacklist := Some ["blocked.com"];
     cfg_mark_as_read := None;
     cfg_system_prompt := Some "You answer e-mail.";
     cfg_claude_model_name := Some "claude";
     cfg_openai_model_name := Some "gpt";
     cfg_max_tokens := None;
     cfg_temperature := None |}.

(** The same configuration with another blacklist. *)
Definition cfg_blacklist_is (bl : list string) : config :=
  {| cfg_email := cfg_email cfg;
     cfg_blacklist := Some bl;
     cfg_mark_as_read := cfg_mark_as_read cfg;
     cfg_system_prompt := cfg_system_prompt cfg;
     cfg_claude_model_name := cfg_claude_model_name cfg;
     cfg_openai_model_name := cfg_openai_model_name cfg;
     cfg_max_tokens := cfg_max_tokens cfg;
     cfg_temperature := cfg_temperature cfg |}.

(** The same configuration with [mark_as_read: false]. *)
Definition cfg_keep_unread : config :=
  {| cfg_email := cfg_email cfg;
     cfg_blacklist := cfg_blacklist cfg;
     cfg_mark_as_read := Some false;
     cfg_system_prompt := cfg_system_prompt cfg;
     cfg_claude_model_name := cfg_claude_model_name cfg;
     cfg_openai_model_name := cfg_openai_model_name cfg;
     cfg_max_tokens := cfg_max_tokens cfg;
     cfg_temperature := cfg_temperature cfg |}.

Definition alice_message : message :=
  {| msg_from := "alice@example.com";
     msg_reply_to := None;
     msg_subject := Some "Question";
     msg_body := Leaf "text/plain" (Some "How do I reset my password?") |}.

Definition spam_message : message :=
  {| msg_from := "spam@blocked.com";
     msg_reply_to := None;
     msg_subject := Some "Offer";
     msg_body := Leaf "text/plain" (Some "Buy now") |}.

Definition alice : email :=
  {| uid := "1"; sender := "alice@example.com";
     subject := Some "Question";
     content := "How do I reset my password?" |}.

Definition bob : email :=
  {| uid := "2"; sender := "bob@example.com";
     subject := Some "Hello"; content := "Are you there?" |}.

Definition reply : string := "Here is how to reset it.".

(** A fresh process on an empty disk. *)
Definition start : state :=
  {| history := ∅;
     training_context :=
       {| system_prompt := "You answer e-mail.";
          additional_instructions := [];
          example_responses := [] |};
     files := {| training_context_json := None;
                 conversation_history_json := None |};
     log := [] |}.

(** A world in which every call succeeds. *)
Definition fine : environment :=
  {| imap_search := fun _ _ => Some ["1"];
     imap_fetch := fun _ _ => Some alice_message;
     imap_select := fun _ _ => true;
     imap_append := fun _ _ _ _ => true;
     imap_store := fun _ _ => true;
     anthropic_create := fun _ _ => Replies (ContentList [TextItem reply]);
     openai_create := fun _ _ => Replies [reply];
     datetime_now := fun _ => "2024-01-01T10:00:00";
     write_training := fun _ _ => Written;
     write_history := fun _ _ => Written |}.

(** [fine] with other answers to some of the calls. *)
Definition fetching (m : message) : environment :=
  {| imap_search := imap_search fine;
     imap_fetch := fun _ _ => Some m;
     imap_select := imap_select fine;
     imap_append := imap_append fine;
     imap_store := imap_store fine;
     anthropic_create := anthropic_create fine;
     openai_create := openai_create fine;
     datetime_now := datetime_now fine;
     write_training := write_training fine;
     write_history := write_history fine |}.

Definition mailboxes (select_ok append_ok : string -> bool) : environment :=
  {| imap_search := imap_search fine;
     imap_fetch := imap_fetch fine;
     imap_select := fun _ mailbox => select_ok mailbox;
     imap_append := fun _ mailbox _ _ => append_ok mailbox;
     imap_store := imap_store fine;
     anthropic_create := anthropic_create fine;
     openai_create := openai_create fine;
     datetime_now := datetime_now fine;
     write_training := write_training fine;
     write_history := write_history fine |}.

Definition answering (a : backend_reply anthropic_response)
    (o : backend_reply openai_response) : environment :=
  {| imap_search := imap_search fine;
     imap_fetch := imap_fetch fine;
     imap_select := imap_select fine;
     imap_append := imap_append fine;
     imap_store := imap_store fine;
     anthropic_create := fun _ _ => a;
     openai_create := fun _ _ => o;
     datetime_now := datetime_now fine;
     write_training := write_training fine;
     write_history := write_history fine |}.

(** The backend fails on the call for the first e-mail only. *)
Definition failing_once : environment :=
  {| imap_search := imap_search fine;
     imap_fetch := imap_fetch fine;
     imap_select := imap_select fine;
     imap_append := imap_append fine;
     imap_store := imap_store fine;
     anthropic_create := fun l _ =>
       match l with
       | [] => BackendRaises "overloaded"
       | _ => Replies (ContentList [TextItem reply])
       end;
     openai_create := openai_create fine;
     datetime_now := datetime_now fine;
     write_training := write_training fine;
     write_history := write_history fine |}.

Definition is_inbox (mailbox : string) : bool := String.eqb mailbox "INBOX".

(** The connection is lost: every IMAP command raises. *)
Definition down : environment := mailboxes (fun _ => false) (fun _ => false).

(** A message with an HTML part, a nested alternative and two plain-text
    parts. *)
Definition newsletter : part :=
  Multipart "multipart/mixed"
    [Leaf "text/html" (Some "<p>Hello</p>");
     Multipart "multipart/alternative"
       [Leaf "text/plain" (Some "Hello");
        Leaf "text/html" (Some "<b>Hello</b>")];
     Leaf "text/plain" (Some "Unsubscribe")].

Definition sample (ts subj : string) : example :=
  {| ex_timestamp := ts; ex_sender := "alice@example.com";
     ex_subject := Some subj; ex_original_content := ""; ex_response := "" |}.

(** Seven stored examples, three of them with the same time stamp. *)
Definition samples : list example :=
  [sample "2024-01-03" "a"; sample "2024-01-01" "b";
   sample "2024-01-05" "c"; sample "2024-01-03" "d";
   sample "2024-01-02" "e"; sample "2024-01-03" "f";
   sample "2024-01-04" "g"].

(** A reply the backend may well give. *)
Definition misleading : string :=
  "Error generating the invoice? Restart the export and try again.".

End Scenario.

(** ** Start-up (__init__, connect_imap) *)

(** What opening the connection and logging in come to; [false] means that
    the call raises. *)
Record connection := {
  ssl_ok : bool;
  login_ok : bool;
}.

(** [connect_imap]: open, log in, select INBOX. *)
Definition connect_imap (E : environment) (c : connection) : M unit :=
  if ssl_ok c then
    if login_ok c then select E "INBOX" else raise "imap.login"
  else raise "IMAP4_SSL".

(** [load_config] of the class: the argument is what reading and parsing
    config.yaml gives, [None] when that raises. *)
Definition load_config (config_file : option config) : M config :=
  match config_file with
  | Some cfg => ret cfg
  | None => raise "FileNotFoundError"
  end.

(** [__init__] of the base class; the value is [self.config]. *)
Definition init (E : environment) (config_file : option config)
    (c : connection) : M config :=
  cfg <- load_config config_file ;;
  connect_imap E c ;;;
  load_history E ;;;
  load_training_context E cfg ;;;
  ret cfg.

(** ** The service (email_assistant_service.py) *)

Module Service.

(** The configuration as the service sees it: the keys of the mapping in
    config.yaml. *)
Definition required_fields : list string :=
  ["email"; "password"; "imap_server"].

(** The loop over the required fields. *)
Fixpoint check_required (fields : list string) (config : gset string)
  : result unit :=
  match fields with
  | [] => Ok tt
  | field :: fields' =>
      if decide (field ∈ config) then check_required fields' config
      else Raise ("Missing required configuration: " +:+ field)
  end.

Definition validate_config (config : gset string) : result unit :=
  match check_required required_fields config with
  | Raise e => Raise e
  | Ok _ =>
      if decide ("openai_model_name" ∈ config ∧ "openai_api_key" ∉ config)
      then Raise "OpenAI API key is required when using OpenAI models"
      else if decide ("claude_model_name" ∈ config
                      ∧ "anthropic_api_key" ∉ config)
      then Raise "Anthropic API key is required when using Claude models"
      else if decide ("gemini_model_name" ∈ config
                      ∧ "google_api_key" ∉ config)
      then Raise "Google API key is required when using Gemini models"
      else Ok tt
  end.

(** [load_config] of the service: the argument is what reading and parsing
    the file gives. Every exception comes out as a [ValueError] with the
    text of the first one. *)
Definition load_config (file : result (gset string)) : result (gset string) :=
  match file with
  | Raise e => Raise ("Configuration error: " +:+ e)
  | Ok config =>
      match validate_config config with
      | Ok _ => Ok config
      | Raise e => Raise ("Configuration error: " +:+ e)
      end
  end.

(** The classes [main] chooses from. *)
Inductive assistant_class :=
| OpenAIEmailAssistant
| ClaudeEmailAssistant
| GeminiEmailAssistant.

(** The [if]/[elif] chain of [main]. *)
Definition choose_assistant (config : gset string) : result assistant_class :=
  if decide ("openai_model_name" ∈ config) then Ok OpenAIEmailAssistant
  else if decide ("claude_model_name" ∈ config) then Ok ClaudeEmailAssistant
  else if decide ("gemini_model_name" ∈ config) then Ok GeminiEmailAssistant
  else Raise "No AI model specified in configuration".

(** The part of [main] before the loop, up to the choice of the class. *)
Definition main_start (file : result (gset string)) : result assistant_class :=
  match load_config file with
  | Ok config => choose_assistant config
  | Raise e => Raise e
  end.

(** The key each class reads its API key from. *)
Definition api_key_of (a : assistant_class) : string :=
  match a with
  | OpenAIEmailAssistant => "openai_api_key"
  | ClaudeEmailAssistant => "anthropic_api_key"
  | GeminiEmailAssistant => "google_api_key"
  end.

(** How a call of the handler ends. *)
Inductive ending :=
| Returns
| Exits (status : nat).

(** The attribute [shutdown_handler.called] and the logouts sent so far,
    each with its outcome. *)
Record handler := {
  called : bool;
  logouts : list bool;
}.

(** [shutdown_handler]; [has_imap] is the test [assistant and
    hasattr(assistant, 'imap')], [logout_ok] says whether the logout
    returns. *)
Definition shutdown_handler (has_imap logout_ok : bool) (h : handler)
  : ending * handler :=
  if called h then (Returns, h)
  else
    (Exits 0,
     {| called := true;
        logouts := if has_imap then logouts h ++ [logout_ok]
                   else logouts h |}).

(** Several signals, one after the other; each comes with the outcome its
    logout would have. *)
Fixpoint deliver (has_imap : bool) (signals : list bool) (h : handler)
  : list ending * handler :=
  match signals with
  | [] => ([], h)
  | logout_ok :: signals' =>
      let (e, h1) := shutdown_handler has_imap logout_ok h in
      let (es, h2) := deliver has_imap signals' h1 in
      (e :: es, h2)
  end.

End Service.

(** ** More observations *)

(** The message numbers fetched, in order. *)
Fixpoint fetched_numbers (evs : list event) : list string :=
  match evs with
  | [] => []
  | EvFetch num _ :: evs' => num :: fetched_numbers evs'
  | _ :: evs' => fetched_numbers evs'
  end.

(** The appends the server accepted. *)
Fixpoint stored_drafts (evs : list event) : list (string * draft) :=
  match evs with
  | [] => []
  | EvAppend mailbox _ d true :: evs' => (mailbox, d) :: stored_drafts evs'
  | _ :: evs' => stored_drafts evs'
  end.

Definition is_search_or_fetch (ev : event) : Prop :=
  match ev with
  | EvSearch _ _ | EvFetch _ _ => True
  | _ => False
  end.

Definition is_write (ev : event) : Prop :=
  match ev with
  | EvWriteTraining _ _ | EvWriteHistory _ _ => True
  | _ => False
  end.

(** History [h2] is history [h1] with entries added at the end of some
    sequences, each with a response the loop takes for a reply. *)
Definition grown (h1 h2 : gmap string (list conversation)) : Prop :=
  forall s, exists more,
    default [] (h2 !! s) = default [] (h1 !! s) ++ more /\
    Forall (fun conv => usable (conv_response conv) = true) more.

(** The line of an instruction in the system prompt. *)
Definition instruction_line (inst : instruction) : string :=
  "- " +:+ inst_instruction inst +:+ nl.

(** Memory and disk hold the same documents. *)
Definition in_step (st : state) : Prop :=
  training_context_json (files st) = Some (Document (training_context st)) /\
  conversation_history_json (files st) = Some (Document (history st)).

(** ** More scenarios *)

Module Cases.

(** [Scenario.fine] with other outcomes of the writes. *)
Definition writing (w : write_outcome) : environment :=
  {| imap_search := imap_search Scenario.fine;
     imap_fetch := imap_fetch Scenario.fine;
     imap_select := imap_select Scenario.fine;
     imap_append := imap_append Scenario.fine;
     imap_store := imap_store Scenario.fine;
     anthropic_create := anthropic_create Scenario.fine;
     openai_create := openai_create Scenario.fine;
     datetime_now := datetime_now Scenario.fine;
     write_training := fun _ _ => w;
     write_history := fun _ _ => w |}.

(** A mailbox with three unseen messages; the second cannot be fetched and
    the third has a body that cannot be decoded. *)
Definition broken_message : message :=
  {| msg_from := "carol@example.com";
     msg_reply_to := None;
     msg_subject := Some "Photo";
     msg_body := Leaf "text/plain" None |}.

Definition three_messages : environment :=
  {| imap_search := fun _ _ => Some ["1"; "2"; "3"];
     imap_fetch := fun _ num =>
       if String.eqb num "1" then Some Scenario.alice_message
       else if String.eqb num "2" then None
       else Some broken_message;
     imap_select := imap_select Scenario.fine;
     imap_append := imap_append Scenario.fine;
     imap_store := imap_store Scenario.fine;
     anthropic_create := anthropic_create Scenario.fine;
     openai_create := openai_create Scenario.fine;
     datetime_now := datetime_now Scenario.fine;
     write_training := write_training Scenario.fine;
     write_history := write_history Scenario.fine |}.

(** The configuration without the name of the Claude model. *)
Definition cfg_without_model : config :=
  {| cfg_email := cfg_email Scenario.cfg;
     cfg_blacklist := cfg_blacklist Scenario.cfg;
     cfg_mark_as_read := cfg_mark_as_read Scenario.cfg;
     cfg_system_prompt := cfg_system_prompt Scenario.cfg;
     cfg_claude_model_name := None;
     cfg_openai_model_name := cfg_openai_model_name Scenario.cfg;
     cfg_max_tokens := cfg_max_tokens Scenario.cfg;
     cfg_temperature := cfg_temperature Scenario.cfg |}.

Definition online : connection := {| ssl_ok := true; login_ok := true |}.

(** The keys of a configuration for the Claude model. *)
Definition claude_keys : gset string :=
  {["email"; "password"; "imap_server"; "claude_model_name";
    "anthropic_api_key"]}.

End Cases.

(** ** Counting calls *)

Fixpoint count_events (p : event -> bool) (evs : list event) : nat :=
  match evs with
  | [] => 0
  | ev :: evs' => (if p ev then 1 else 0) + count_events p evs'
  end.

Definition backend_call (ev : event) : bool :=
  match ev with EvAnthropic _ _ | EvOpenAI _ _ => true | _ => false end.

Definition record_written (ev : event) : bool :=
  match ev with EvWriteHistory _ Written => true | _ => false end.

Definition flag_command (ev : event) : bool :=
  match ev with EvStore _ _ => true | _ => false end.

Definition draft_stored (ev : event) : bool :=
  match ev with EvAppend _ _ _ true => true | _ => false end.

(** A fetched message that [get_new_emails] has no reason to skip: no
    blacklist entry occurs in the lower-cased sender or in the lower-cased
    reply-to, if there is a non-empty one, and the body can be decoded. *)
Definition acceptable (cfg : config) (m : message) : bool :=
  negb (blacklisted cfg (msg_from m)) &&
  match msg_reply_to m with
  | Some reply_to => negb (Py.truthy reply_to && blacklisted cfg reply_to)
  | None => true
  end &&
  match first_plain_text (msg_body m) with
  | Ok _ => true
  | Raise _ => false
  end.

(** * Properties *)

(** ** Strings and slices *)

Lemma append_cons (c : ascii) (a b : string) :
  String c a +:+ b = String c (a +:+ b).
Proof. reflexivity. Qed.

Lemma append_nil (b : string) : "" +:+ b = b.
Proof. reflexivity. Qed.

Lemma prefix_iff (p s : string) :
  String.prefix p s = true <-> exists b, s = p +:+ b.
Proof.
  revert s. induction p as [|c p IH]; intros s; simpl.
  - split; [intros _; exists s; reflexivity | intros _; destruct s; reflexivity].
  - destruct s as [|c' s]; simpl.
    + split; [discriminate | intros [b Hb]; discriminate].
    + destruct (Ascii.ascii_dec c c') as [->|Hne].
      * rewrite IH. split; intros [b Hb]; exists b;
          rewrite append_cons in *; congruence.
      * split; [discriminate | intros [b Hb]; rewrite append_cons in Hb; congruence].
Qed.

(** [needle in hay] is substring containment. *)
Lemma contains_iff (p s : string) :
  Py.contains p s = true <-> exists a b, s = a +:+ p +:+ b.
Proof.
  induction s as [|c s IH]; cbn [Py.contains].
  - rewrite orb_false_r, prefix_iff. split.
    + intros [b Hb]. exists "", b. exact Hb.
    + intros [a [b Hb]]. destruct a; [exists b; exact Hb | discriminate].
  - rewrite orb_true_iff, prefix_iff, IH. split.
    + intros [[b Hb] | [a [b Hb]]].
      * exists "", b. exact Hb.
      * exists (String c a), b. rewrite append_cons. congruence.
    + intros [[|c' a] [b Hb]].
      * left. exists b. exact Hb.
      * right. exists a, b. rewrite append_cons in Hb. congruence.
Qed.

Lemma lower_ascii_idemp (c : ascii) :
  Py.lower_ascii (Py.lower_ascii c) = Py.lower_ascii c.
Proof.
  destruct c as [[] [] [] [] [] [] [] []]; reflexivity.
Qed.

Lemma lower_idemp (s : string) : Py.lower (Py.lower s) = Py.lower s.
Proof.
  induction s as [|c s IH]; simpl; [reflexivity|].
  rewrite lower_ascii_idemp, IH. reflexivity.
Qed.

Lemma any_true_iff {A} (p : A -> bool) (l : list A) :
  Py.any p l = true <-> exists x, In x l /\ p x = true.
Proof.
  induction l as [|y l IH]; simpl.
  - split; [discriminate | intros [x [[] _]]].
  - destruct (p y) eqn:Hy.
    + split; [intros _; exists y; auto | reflexivity].
    + rewrite IH. split.
      * intros [x [Hx Hpx]]. exists x. auto.
      * intros [x [[->|Hx] Hpx]]; [congruence | exists x; auto].
Qed.

(** [l[-n:]] is the suffix of [l] that has [n] elements, or all of [l]. *)
Lemma slice_from_neg {A} (n : nat) (l : list A) :
  0 < n -> Py.slice_from (- Z.of_nat n) l = drop (length l - n) l.
Proof.
  intros Hn.
  unfold Py.slice_from. cbv zeta. f_equal.
  destruct (Z.ltb_spec (- Z.of_nat n) 0);
    repeat match goal with
           | |- context [(?a <? ?b)%Z] => destruct (Z.ltb_spec a b)
           end; lia.
Qed.

Lemma slice_from_neg_suffix {A} (n : nat) (l : list A) :
  0 < n ->
  exists older, l = older ++ Py.slice_from (- Z.of_nat n) l /\
                length (Py.slice_from (- Z.of_nat n) l) = min n (length l).
Proof.
  intros Hn. rewrite slice_from_neg by exact Hn.
  exists (take (length l - n) l). split.
  - symmetry. apply take_drop.
  - rewrite length_drop. lia.
Qed.

(** ** Message bodies *)

Lemma scan_parts_find (ps : list part) (content : string) :
  scan_parts ps content =
  match find is_text_plain ps with
  | Some p => payload_decode p
  | None => Ok content
  end.
Proof.
  induction ps as [|p ps IH]; simpl; [reflexivity|].
  unfold is_text_plain at 1. destruct (String.eqb _ _); [reflexivity | exact IH].
Qed.

Lemma extract_content_first_plain_text (body : part) :
  extract_content body = first_plain_text body.
Proof.
  unfold extract_content, first_plain_text.
  destruct (is_multipart body); [apply scan_parts_find | reflexivity].
Qed.

(** ** Running the primitive calls *)

Lemma logged_nil (st : state) : logged st [] = st.
Proof. destruct st. unfold logged. simpl. rewrite app_nil_r. reflexivity. Qed.

Lemma logged_logged (st : state) (a b : list event) :
  logged (logged st a) b = logged st (a ++ b).
Proof. unfold logged. simpl. rewrite app_assoc. reflexivity. Qed.

Lemma call_run {A} (ask : list event -> A) (ev : A -> event) (st : state) :
  call ask ev st = (Ok (ask (log st)), logged st [ev (ask (log st))]).
Proof. reflexivity. Qed.

Section Calls.
Context (E : environment).

Lemma fetch_run (num : string) (st : state) :
  fetch E num st =
  (match imap_fetch E (log st) num with
   | Some m => Ok m
   | None => Raise "imap.fetch"
   end,
   logged st [EvFetch num (imap_fetch E (log st) num)]).
Proof.
  unfold fetch, bind. rewrite call_run.
  destruct (imap_fetch E (log st) num); reflexivity.
Qed.

Lemma select_run (mailbox : string) (st : state) :
  select E mailbox st =
  (if imap_select E (log st) mailbox then Ok tt else Raise "imap.select",
   logged st [EvSelect mailbox (imap_select E (log st) mailbox)]).
Proof.
  unfold select, bind. rewrite call_run.
  destruct (imap_select E (log st) mailbox); reflexivity.
Qed.

Lemma append_run (mailbox flags : string) (d : draft) (st : state) :
  append E mailbox flags d st =
  (if imap_append E (log st) mailbox flags d
   then Ok tt else Raise "imap.append",
   logged st [EvAppend mailbox flags d
                (imap_append E (log st) mailbox flags d)]).
Proof.
  unfold append, bind. rewrite call_run.
  destruct (imap_append E (log st) mailbox flags d); reflexivity.
Qed.

Lemma store_run (u : string) (st : state) :
  store E u st =
  (if imap_store E (log st) u then Ok tt else Raise "imap.store",
   logged st [EvStore u (imap_store E (log st) u)]).
Proof.
  unfold store, bind. rewrite call_run.
  destruct (imap_store E (log st) u); reflexivity.
Qed.
End Calls.

(** ** The history window *)

Lemma append_assoc (a b c : string) : (a +:+ b) +:+ c = a +:+ b +:+ c.
Proof.
  induction a as [|x a IH]; [reflexivity|].
  rewrite !append_cons, IH. reflexivity.
Qed.

Lemma append_empty_r (a : string) : a +:+ "" = a.
Proof.
  induction a as [|x a IH]; [reflexivity|].
  rewrite append_cons, IH. reflexivity.
Qed.

(** Accumulating with [+=] is concatenation in the order of the list. *)
Lemma fold_append {A} (f : A -> string) (l : list A) (init : string) :
  fold_left (fun acc x => acc +:+ f x) l init
  = init +:+ String.concat "" (map f l).
Proof.
  revert init. induction l as [|x l IH]; intros init; simpl.
  - symmetry. apply append_empty_r.
  - rewrite IH, append_assoc. destruct l as [|y l]; simpl.
    + rewrite !append_empty_r. reflexivity.
    + reflexivity.
Qed.

Lemma render_history_concat (l : list conversation) :
  render_history l = String.concat "" (map render_conversation l).
Proof. unfold render_history. rewrite fold_append. reflexivity. Qed.


(** ** Candidates *)


(** ** The blacklist *)

Lemma fetched_messages_app (a b : list event) :
  fetched_messages (a ++ b) = fetched_messages a ++ fetched_messages b.
Proof.
  induction a as [|ev a IH]; [reflexivity|].
  destruct ev as [| num [m|] | | | | | | | |]; simpl; rewrite IH; reflexivity.
Qed.

Section Fetching.
Context (E : environment) (cfg : config).

(** One turn of the loop asks for the message and keeps the candidate made
    of it, if any. *)
Lemma fetch_message_run (num : string) (st : state) :
  exists evs,
    fetch_message E cfg num st
    = (Ok (match fetched_messages evs with
           | nm :: _ => candidate cfg nm
           | [] => None
           end), logged st evs) /\
    length (fetched_messages evs) <= 1.
Proof.
  exists [EvFetch num (imap_fetch E (log st) num)].
  unfold fetch_message, try_except, bind. rewrite fetch_run.
  destruct (imap_fetch E (log st) num) as [m|]; simpl; [|auto].
  unfold candidate, lift. simpl.
  destruct (read_message cfg num m) as [o|e]; auto.
Qed.

Lemma fetch_loop_run (nums : list string) (emails : list email) (st : state) :
  exists evs,
    fetch_loop E cfg nums emails st
    = (Ok (emails ++ omap (candidate cfg) (fetched_messages evs)),
       logged st evs).
Proof.
  revert emails st. induction nums as [|num nums IH]; intros emails st.
  - exists []. simpl. rewrite app_nil_r, logged_nil. reflexivity.
  - destruct (fetch_message_run num st) as [evs1 [Hrun Hone]].
    cbn [fetch_loop]. unfold bind at 1. rewrite Hrun.
    match goal with
    | |- context [fetch_loop E cfg nums ?acc ?st1] =>
        destruct (IH acc st1) as [evs2 Hrest]
    end.
    exists (evs1 ++ evs2). rewrite Hrest, logged_logged, fetched_messages_app.
    f_equal. f_equal. rewrite omap_app.
    destruct (fetched_messages evs1) as [|nm [|nm' rest]]; simpl in *;
      [reflexivity | | lia].
    destruct (candidate cfg nm); simpl.
    all: rewrite <- ?app_assoc, ?app_nil_r; reflexivity.
Qed.

Lemma get_new_emails_run (criteria : string) (st : state)
    (emails : list email) (st' : state) :
  get_new_emails E cfg criteria st = (Ok emails, st') ->
  exists evs,
    st' = logged st evs /\
    emails = omap (candidate cfg) (fetched_messages evs).
Proof.
  unfold get_new_emails, search, bind. rewrite call_run.
  destruct (imap_search E (log st) criteria) as [nums|]; [|discriminate].
  simpl.
  match goal with
  | |- context [fetch_loop E cfg nums [] ?st1] =>
      destruct (fetch_loop_run nums [] st1) as [evs Hrun]
  end.
  rewrite Hrun, logged_logged. intros [= <- <-].
  eexists. split; reflexivity.
Qed.
End Fetching.

(** What the code compares is the entry as it is written; for an entry
    written in lower case that is the comparison without regard to case. *)
Lemma blacklisted_false (cfg : config) (addr entry : string) :
  blacklisted cfg addr = false ->
  In entry (default [] (cfg_blacklist cfg)) ->
  Py.lower entry = entry ->
  contains_ci entry addr = false.
Proof.
  unfold blacklisted, contains_ci. intros Hno Hin Hlow. rewrite Hlow.
  destruct (Py.contains entry (Py.lower addr)) eqn:Hc; [|reflexivity].
  assert (Py.any (fun e => Py.contains e (Py.lower addr))
                 (default [] (cfg_blacklist cfg)) = true) as Hany
    by (apply any_true_iff; exists entry; auto).
  congruence.
Qed.

Lemma contains_ci_empty (entry : string) :
  contains_ci entry "" = true -> Py.lower entry = "".
Proof.
  unfold contains_ci. cbn [Py.lower Py.contains]. rewrite orb_false_r.
  destruct (Py.lower entry); [reflexivity | discriminate].
Qed.

Lemma contains_empty (s : string) : Py.contains "" s = true.
Proof. destruct s; reflexivity. Qed.

(** A message that was made a candidate has no sender and no reply-to that
    a lower-case blacklist entry occurs in. *)
Lemma candidate_not_blacklisted (cfg : config) (nm : string * message)
    (e : email) :
  candidate cfg nm = Some e ->
  (uid e = nm.1 /\ sender e = msg_from nm.2 /\
   subject e = msg_subject nm.2) /\
  forall entry,
    In entry (default [] (cfg_blacklist cfg)) ->
    Py.lower entry = entry ->
    contains_ci entry (msg_from nm.2) = false /\
    forall reply_to, msg_reply_to nm.2 = Some reply_to ->
                     contains_ci entry reply_to = false.
Proof.
  destruct nm as [num m]. unfold candidate, read_message. simpl.
  destruct (blacklisted cfg (msg_from m)) eqn:Hfrom; [discriminate|].
  destruct (match msg_reply_to m with
            | Some r => Py.truthy r && blacklisted cfg r
            | None => false
            end) eqn:Hreply; [discriminate|].
  destruct (extract_content (msg_body m)) as [c|]; [|discriminate].
  intros [= <-]. simpl. split; [auto|].
  intros entry Hin Hlow.
  pose proof (blacklisted_false cfg _ _ Hfrom Hin Hlow) as Hsender.
  split; [exact Hsender|].
  intros reply_to Hr. rewrite Hr in Hreply.
  destruct reply_to as [|c0 r0].
  - destruct (contains_ci entry "") eqn:Hc; [|reflexivity].
    apply contains_ci_empty in Hc.
    unfold contains_ci in Hsender. rewrite Hc, contains_empty in Hsender.
    discriminate.
  - simpl in Hreply. eapply blacklisted_false; eauto.
Qed.

Lemma omap_kept {A B} (f : A -> option B) (P : B -> A -> Prop) (l : list A) :
  (forall a b, f a = Some b -> P b a) ->
  exists kept, sublist kept l /\ Forall2 P (omap f l) kept.
Proof.
  intros Hf. induction l as [|a l [kept [Hsub Hall]]].
  - exists []. split; constructor.
  - simpl. destruct (f a) as [b|] eqn:Hfa.
    + exists (a :: kept). split; [by constructor|].
      constructor; auto.
    + exists kept. split; [by constructor | exact Hall].
Qed.



Example spam_is_no_candidate :
  get_new_emails (Scenario.fetching Scenario.spam_message) Scenario.cfg
    "UNSEEN" Scenario.start
  = (Ok [], logged Scenario.start
              [EvSearch "UNSEEN" (Some ["1"]);
               EvFetch "1" (Some Scenario.spam_message)]).
Proof. reflexivity. Qed.


(** ** The order of time stamps *)

Lemma ascii_compare_refl (c : ascii) : Ascii.compare c c = Eq.
Proof. unfold Ascii.compare. apply N.compare_refl. Qed.

Lemma ascii_compare_lt_trans (a b c : ascii) :
  Ascii.compare a b = Lt -> Ascii.compare b c = Lt -> Ascii.compare a c = Lt.
Proof.
  unfold Ascii.compare. rewrite !N.compare_lt_iff. apply N.lt_trans.
Qed.

Lemma string_compare_refl (s : string) : String.compare s s = Eq.
Proof.
  induction s as [|c s IH]; simpl; [reflexivity|].
  rewrite ascii_compare_refl. exact IH.
Qed.

Lemma string_compare_lt_trans (a b c : string) :
  String.compare a b = Lt -> String.compare b c = Lt ->
  String.compare a c = Lt.
Proof.
  revert b c. induction a as [|x a IH]; intros [|y b] [|z c]; simpl;
    try discriminate; try reflexivity.
  destruct (Ascii.compare x y) eqn:Hxy; try discriminate;
    destruct (Ascii.compare y z) eqn:Hyz; try discriminate; intros Hab Hbc.
  - apply Ascii.compare_eq_iff in Hxy, Hyz. subst.
    rewrite ascii_compare_refl. eauto.
  - apply Ascii.compare_eq_iff in Hxy. subst. rewrite Hyz. reflexivity.
  - apply Ascii.compare_eq_iff in Hyz. subst. rewrite Hxy. reflexivity.
  - rewrite (ascii_compare_lt_trans _ _ _ Hxy Hyz). reflexivity.
Qed.

Lemma ltb_irrefl (a : string) : String.ltb a a = false.
Proof. unfold String.ltb. rewrite string_compare_refl. reflexivity. Qed.

Lemma ltb_trans (a b c : string) :
  String.ltb a b = true -> String.ltb b c = true -> String.ltb a c = true.
Proof.
  unfold String.ltb. intros Hab Hbc.
  destruct (String.compare a b) eqn:Cab; try discriminate.
  destruct (String.compare b c) eqn:Cbc; try discriminate.
  rewrite (string_compare_lt_trans _ _ _ Cab Cbc). reflexivity.
Qed.

(** Two keys are in order one way or the other, or they are equal. *)
Lemma ltb_connected (a b : string) :
  String.ltb a b = false -> String.ltb b a = true \/ a = b.
Proof.
  unfold String.ltb. rewrite (String.compare_antisym b a).
  destruct (String.compare a b) eqn:Cab; simpl; intros H;
    try discriminate; auto.
  right. apply String.compare_eq_iff. exact Cab.
Qed.

(** ** The stable sort *)

Lemma StronglySorted_rev {A} (R : relation A) (l : list A) :
  StronglySorted R l -> StronglySorted (flip R) (rev l).
Proof.
  induction 1 as [|x l Hl IH Hx]; simpl; [constructor|].
  apply StronglySorted_app_2.
  - intros y z Hy Hz. apply list_elem_of_singleton in Hz as ->.
    rewrite Forall_forall in Hx. apply Hx.
    apply list_elem_of_In. apply list_elem_of_In in Hy.
    apply in_rev. exact Hy.
  - exact IH.
  - repeat constructor.
Qed.

Lemma StronglySorted_lookup {A} (R : relation A) (l : list A)
    (p q : nat) (x y : A) :
  StronglySorted R l -> p < q -> l !! p = Some x -> l !! q = Some y -> R x y.
Proof.
  intros Hl. revert p q. induction Hl as [|z l Hl IH Hz]; intros p q Hpq Hp Hq.
  - discriminate.
  - destruct q as [|q]; [lia|]. simpl in Hq. destruct p as [|p].
    + simpl in Hp. injection Hp as ->. rewrite Forall_forall in Hz.
      apply Hz. eapply list_elem_of_lookup_2. exact Hq.
    + simpl in Hp. apply (IH p q); [lia | exact Hp | exact Hq].
Qed.

Section StableSort.
Context {A : Type} (key : A -> string) (pos : A -> nat).

Local Abbreviation rising := (rising key pos).

Lemma insert_sorted_perm (x : A) (l : list A) :
  Py.insert_sorted key x l ≡ₚ x :: l.
Proof.
  induction l as [|y l IH]; simpl; [reflexivity|].
  destruct (String.ltb (key y) (key x)); [|reflexivity].
  rewrite IH. apply Permutation_swap.
Qed.

Lemma sort_stable_perm (l : list A) : Py.sort_stable key l ≡ₚ l.
Proof.
  induction l as [|x l IH]; simpl; [reflexivity|].
  rewrite insert_sorted_perm, IH. reflexivity.
Qed.

Lemma rising_after (x y z : A) :
  String.ltb (key y) (key x) = false -> pos y < pos x -> pos z < pos x ->
  rising y z -> rising x y /\ rising x z.
Proof.
  intros Hyx Hy Hz Hyz. unfold rising in *.
  destruct (ltb_connected _ _ Hyx) as [Hlt | Heq].
  - split; [auto|]. destruct Hyz as [Hyz | [Hyz _]].
    + left. eapply ltb_trans; eauto.
    + left. rewrite <- Hyz. exact Hlt.
  - split; [right; split; [congruence | exact Hy]|].
    destruct Hyz as [Hyz | [Hyz _]].
    + left. rewrite Heq in Hyz. exact Hyz.
    + right. split; [congruence | exact Hz].
Qed.

Lemma insert_sorted_rising (x : A) (l : list A) :
  StronglySorted rising l ->
  Forall (fun y => pos y < pos x) l ->
  StronglySorted rising (Py.insert_sorted key x l).
Proof.
  induction 1 as [|y l Hl IH Hy]; intros Hpos; simpl.
  - repeat constructor.
  - apply Forall_cons in Hpos as [Hposy Hposl].
    destruct (String.ltb (key y) (key x)) eqn:Hyx.
    + constructor; [apply IH; exact Hposl|].
      rewrite insert_sorted_perm. constructor; [left; exact Hyx | exact Hy].
    + constructor; [constructor; assumption|].
      rewrite Forall_forall in Hy, Hposl.
      apply Forall_cons. split.
      * destruct (ltb_connected _ _ Hyx) as [Hlt | Heq];
          [left; exact Hlt | right; split; [congruence | exact Hposy]].
      * apply Forall_forall. intros z Hz.
        apply (rising_after x y z); auto.
Qed.

Lemma sort_stable_rising (l : list A) :
  StronglySorted (fun x y => pos y < pos x) l ->
  StronglySorted rising (Py.sort_stable key l).
Proof.
  induction 1 as [|x l Hl IH Hx]; simpl; [constructor|].
  apply insert_sorted_rising; [exact IH|].
  rewrite sort_stable_perm. exact Hx.
Qed.

Lemma sorted_reverse_perm (l : list A) : Py.sorted_reverse key l ≡ₚ l.
Proof.
  unfold Py.sorted_reverse.
  rewrite <- Permutation_rev, sort_stable_perm, <- Permutation_rev.
  reflexivity.
Qed.

(** A reverse sort of elements that come in by rising position leaves
    falling keys, and rising positions among equal keys. *)
Lemma sorted_reverse_falling (l : list A) :
  StronglySorted (fun x y => pos x < pos y) l ->
  StronglySorted (flip rising) (Py.sorted_reverse key l).
Proof.
  intros Hl. unfold Py.sorted_reverse.
  apply StronglySorted_rev, sort_stable_rising.
  apply (StronglySorted_rev _ _ Hl).
Qed.
End StableSort.

(** Sorting looks at the keys only. *)
Lemma sorted_reverse_map {A B} (f : A -> B) (key : B -> string) (l : list A) :
  map f (Py.sorted_reverse (fun x => key (f x)) l)
  = Py.sorted_reverse key (map f l).
Proof.
  unfold Py.sorted_reverse. rewrite map_rev, <- (map_rev f l). f_equal.
  induction (rev l) as [|x r IH]; simpl; [reflexivity|].
  rewrite <- IH. clear IH.
  induction (Py.sort_stable (fun x => key (f x)) r) as [|y s IH]; simpl;
    [reflexivity|].
  destruct (String.ltb (key (f y)) (key (f x))); simpl; [|reflexivity].
  rewrite IH. reflexivity.
Qed.

(** ** The example block *)

Lemma number_snd {A} (k : nat) (l : list A) : map snd (number k l) = l.
Proof.
  revert k. induction l as [|x l IH]; intros k; simpl; [reflexivity|].
  rewrite IH. reflexivity.
Qed.

Lemma number_length {A} (k : nat) (l : list A) :
  length (number k l) = length l.
Proof. rewrite <- (number_snd k l) at 2. rewrite length_map. reflexivity. Qed.

Lemma number_elem_of {A} (k : nat) (l : list A) (i : nat) (x : A) :
  (i, x) ∈ number k l <-> k <= i /\ l !! (i - k) = Some x.
Proof.
  revert k. induction l as [|y l IH]; intros k; simpl.
  - rewrite elem_of_nil. split; [tauto | intros [_ H]; discriminate].
  - rewrite elem_of_cons, IH. split.
    + intros [[= -> ->] | [Hk Hx]].
      * split; [lia|]. replace (k - k) with 0 by lia. reflexivity.
      * split; [lia|]. replace (i - k) with (S (i - S k)) by lia. exact Hx.
    + intros [Hk Hx]. destruct (decide (i = k)) as [->|Hne].
      * left. replace (k - k) with 0 in Hx by lia. simpl in Hx. congruence.
      * right. split; [lia|].
        replace (i - k) with (S (i - S k)) in Hx by lia. exact Hx.
Qed.

Lemma number_rising {A} (k : nat) (l : list A) :
  StronglySorted (fun a b : nat * A => a.1 < b.1) (number k l).
Proof.
  revert k. induction l as [|x l IH]; intros k; simpl; constructor.
  - apply IH.
  - apply Forall_forall. intros [i y] Hin.
    apply number_elem_of in Hin as [Hk _]. simpl. lia.
Qed.

Lemma StronglySorted_fst_NoDup {A} (l : list (nat * A)) :
  StronglySorted (fun a b : nat * A => a.1 < b.1) l -> NoDup (map fst l).
Proof.
  induction 1 as [|x l Hl IH Hx]; simpl; constructor; [|exact IH].
  intros Hin. apply list_elem_of_fmap in Hin as [y [Hy Hin]].
  rewrite Forall_forall in Hx. specialize (Hx y Hin). lia.
Qed.

Lemma lookup_by_number {A} (l : list A) (s : list (nat * A)) :
  (forall i x, (i, x) ∈ s -> l !! i = Some x) ->
  omap (fun i => l !! i) (map fst s) = map snd s.
Proof.
  induction s as [|[i x] s IH]; intros Hs; simpl; [reflexivity|].
  rewrite (Hs i x) by apply list_elem_of_here.
  simpl. f_equal. apply IH.
  intros j y Hin. apply Hs. apply list_elem_of_further. exact Hin.
Qed.

Section ExampleBlock.
Variable examples : list example.

Local Abbreviation sorted := (sorted_with_places examples).

Local Lemma sorted_elem_of (i : nat) (x : example) :
  (i, x) ∈ sorted <-> examples !! i = Some x.
Proof.
  unfold sorted_with_places. rewrite sorted_reverse_perm, number_elem_of.
  replace (i - 0) with i by lia. split; [tauto | split; [lia | assumption]].
Qed.

Local Lemma sorted_falling :
  StronglySorted (flip (rising stamp fst)) sorted.
Proof. apply sorted_reverse_falling, number_rising. Qed.

Local Lemma falling_goes_before (i j : nat) (a b : example) :
  (i, a) ∈ sorted -> (j, b) ∈ sorted ->
  flip (rising stamp fst) (i, a) (j, b) -> goes_before examples i j.
Proof.
  rewrite !sorted_elem_of. intros Ha Hb Hfall.
  exists a, b. split; [exact Ha|]. split; [exact Hb|].
  destruct Hfall as [Hlt | [Heq Hpos]]; [left; exact Hlt|].
  right. split; [symmetry; exact Heq | exact Hpos].
Qed.

Local Lemma sorted_snd :
  map snd sorted = Py.sorted_reverse ex_timestamp examples.
Proof.
  unfold sorted_with_places, stamp.
  rewrite (sorted_reverse_map snd ex_timestamp), number_snd. reflexivity.
Qed.

Lemma recent_examples_chosen :
  exists chosen : list nat,
    length chosen = min 5 (length examples) /\
    NoDup chosen /\
    (forall p q i j,
        p < q -> chosen !! p = Some i -> chosen !! q = Some j ->
        goes_before examples i j) /\
    (forall i j,
        i ∈ chosen -> j < length examples -> j ∉ chosen ->
        goes_before examples i j) /\
    recent_examples examples = omap (fun i => examples !! i) chosen.
Proof.
  exists (map fst (take 5 sorted)).
  assert (length sorted = length examples) as Hlen.
  { unfold sorted_with_places. rewrite sorted_reverse_perm.
    apply number_length. }
  assert (forall i x, (i, x) ∈ take 5 sorted -> (i, x) ∈ sorted) as Htake.
  { intros i x Hin. rewrite <- (take_drop 5 sorted).
    apply elem_of_app. left. exact Hin. }
  pose proof sorted_falling as Hfall.
  split; [|split; [|split; [|split]]].
  - rewrite length_map, length_take, Hlen. reflexivity.
  - assert (NoDup (map fst sorted)) as Hnd.
    { unfold sorted_with_places. rewrite sorted_reverse_perm.
      apply StronglySorted_fst_NoDup, number_rising. }
    rewrite <- (take_drop 5 sorted), map_app in Hnd.
    apply NoDup_app in Hnd as [Hnd _]. exact Hnd.
  - intros p q i j Hpq Hp Hq.
    apply list_lookup_fmap_Some in Hp as [[i' a] [-> Hp]].
    apply list_lookup_fmap_Some in Hq as [[j' b] [-> Hq]].
    apply lookup_take_Some in Hp as [Hp _].
    apply lookup_take_Some in Hq as [Hq _].
    apply (falling_goes_before i' j' a b).
    + eapply list_elem_of_lookup_2. exact Hp.
    + eapply list_elem_of_lookup_2. exact Hq.
    + exact (StronglySorted_lookup _ _ p q _ _ Hfall Hpq Hp Hq).
  - intros i j Hi Hj Hnot.
    apply list_elem_of_fmap in Hi as [[i' a] [-> Hi]].
    destruct (lookup_lt_is_Some_2 examples j Hj) as [b Hb].
    apply sorted_elem_of in Hb.
    assert ((j, b) ∈ drop 5 sorted) as Hdrop.
    { rewrite <- (take_drop 5 sorted) in Hb.
      apply elem_of_app in Hb as [Hb | Hb]; [|exact Hb].
      exfalso. apply Hnot. apply list_elem_of_fmap.
      exists (j, b). split; [reflexivity | exact Hb]. }
    apply (falling_goes_before i' j a b); [auto | exact Hb |].
    rewrite <- (take_drop 5 sorted) in Hfall.
    apply StronglySorted_app in Hfall as [Hcross _].
    apply Hcross; assumption.
  - unfold recent_examples, Py.slice_to.
    rewrite <- sorted_snd, <- fmap_take.
    symmetry. apply lookup_by_number.
    intros i x Hin. apply sorted_elem_of, Htake, Hin.
Qed.
End ExampleBlock.

Lemma example_context_rendered (t : training) :
  example_context t =
  match example_responses t with
  | [] => ""
  | _ => "Recent example responses:" +:+ nl +:+ nl +:+
         String.concat ""
           (map render_example (recent_examples (example_responses t)))
  end.
Proof.
  unfold example_context. destruct (example_responses t) as [|ex exs];
    [reflexivity|].
  rewrite fold_append, !append_assoc. reflexivity.
Qed.



(** ** The context store *)

Section ContextStore.
Context (E : environment).

(** What [update_history] does to the state, whatever the write does. *)
Lemma update_history_run (m : email) (response : string) (st : state) :
  let ts := datetime_now E (log st) in
  let entry := {| conv_timestamp := ts; conv_subject := subject m;
                  conv_content := content m; conv_response := response |} in
  let h := <[sender m := default [] (history st !! sender m) ++ [entry]]>
             (history st) in
  let w := write_history E (log st ++ [EvNow ts]) h in
  update_history E m response st =
  (match w with Written => Ok tt | _ => Raise "OSError" end,
   {| history := h;
      training_context := training_context st;
      files := match w with
               | Written => with_history (files st) (Some (Document h))
               | OpenFails => files st
               | DumpFails => with_history (files st) (Some Garbled)
               end;
      log := log st ++ [EvNow ts; EvWriteHistory h w] |}).
Proof.
  intros ts entry h w. subst h w.
  unfold update_history, now, save_history, call, emit, bind, get,
    set_history, set_files, raise, ret.
  cbn beta iota.
  destruct (decide (is_Some (history st !! sender m))) as [[l Hl]|Hnone].
  - cbn. rewrite Hl. cbn. fold ts. fold entry.
    destruct (write_history E (log st ++ [EvNow ts])
                (<[sender m := l ++ [entry]]> (history st)));
      unfold logged; cbn; rewrite <- ?app_assoc; reflexivity.
  - assert (history st !! sender m = None) as Hl
      by (destruct (history st !! sender m); [exfalso; eauto | reflexivity]).
    cbn. rewrite lookup_insert_eq, Hl. cbn.
    rewrite insert_insert_eq. fold ts. fold entry.
    destruct (write_history E (log st ++ [EvNow ts])
                (<[sender m := [entry]]> (history st)));
      unfold logged; cbn; rewrite <- ?app_assoc; reflexivity.
Qed.

(** What [add_instruction] does to the state. *)
Lemma add_instruction_run (text : string) (st : state) :
  let ts := datetime_now E (log st) in
  let t := {| system_prompt := system_prompt (training_context st);
              additional_instructions :=
                additional_instructions (training_context st)
                  ++ [{| inst_timestamp := ts; inst_instruction := text |}];
              example_responses :=
                example_responses (training_context st) |} in
  let w := write_training E (log st ++ [EvNow ts]) t in
  add_instruction E text st =
  (match w with Written => Ok tt | _ => Raise "OSError" end,
   {| history := history st;
      training_context := t;
      files := match w with
               | Written => with_training (files st) (Some (Document t))
               | OpenFails => files st
               | DumpFails => with_training (files st) (Some Garbled)
               end;
      log := log st ++ [EvNow ts; EvWriteTraining t w] |}).
Proof.
  intros ts t w. subst w.
  unfold add_instruction, now, save_training_context, call, emit, bind,
    get, set_training_context, set_files, raise, ret.
  cbn. fold ts. fold t.
  destruct (write_training E (log st ++ [EvNow ts]) t);
    unfold logged; cbn; rewrite <- ?app_assoc; reflexivity.
Qed.
End ContextStore.

(** A fresh process that finds the document on disk takes it as its
    training context. *)
Lemma load_training_context_stored
    (E : environment) (cfg : config) (st : state) (t : training) :
  training_context_json (files st) = Some (Document t) ->
  load_training_context E cfg st =
  (Ok tt, {| history := history st; training_context := t;
             files := files st; log := log st |}).
Proof.
  intros Hfile. unfold load_training_context, bind, get. rewrite Hfile.
  reflexivity.
Qed.

(** C5. When [add_instruction] returns, a process that starts afresh on the
    same disk loads a training context whose instructions are the ones held
    before, in their order, followed by the new one; prompt and examples
    are as they were. *)
Theorem add_instruction_survives_reload
    (E : environment) (text : string) (st st1 : state) :
  add_instruction E text st = (Ok tt, st1) ->
  forall (E' : environment) (cfg' : config) (fresh : state),
    files fresh = files st1 ->
    exists ts loaded,
      load_training_context E' cfg' fresh = (Ok tt, loaded) /\
      additional_instructions (training_context loaded)
      = additional_instructions (training_context st)
          ++ [{| inst_timestamp := ts; inst_instruction := text |}] /\
      system_prompt (training_context loaded)
      = system_prompt (training_context st) /\
      example_responses (training_context loaded)
      = example_responses (training_context st).
Proof.
  rewrite add_instruction_run. cbv zeta.
  set (ts := datetime_now E (log st)).
  set (t := {| system_prompt := _ |}).
  destruct (write_training E (log st ++ [EvNow ts]) t); try discriminate.
  intros [= <-] E' cfg' fresh Hfiles.
  exists ts. eexists. split.
  - apply load_training_context_stored. rewrite Hfiles. reflexivity.
  - simpl. auto.
Qed.

Lemma add_instruction_survives_reload_witness :
  exists ts loaded,
    load_training_context Scenario.fine Scenario.cfg
      (snd (add_instruction Scenario.fine "Be brief." Scenario.start))
    = (Ok tt, loaded) /\
    additional_instructions (training_context loaded)
    = [] ++ [{| inst_timestamp := ts; inst_instruction := "Be brief." |}] /\
    system_prompt (training_context loaded) = "You answer e-mail." /\
    example_responses (training_context loaded) = [].
Proof.
  exact (add_instruction_survives_reload Scenario.fine "Be brief."
           Scenario.start _ eq_refl Scenario.fine Scenario.cfg _ eq_refl).
Defined.

(** C10. Recording an interaction puts one entry, made of the subject and
    content of the e-mail and of the response, at the end of the sender's
    sequence, which starts empty for a sender not yet known; the sequences
    of the other senders and the training context stay as they are, no
    sender is left with an empty sequence, and when the call returns the
    history on disk is the one in memory. *)
Theorem update_history_appends_one_entry
    (E : environment) (m : email) (response : string) (st : state) :
  exists entry,
    conv_subject entry = subject m /\
    conv_content entry = content m /\
    conv_response entry = response /\
    let r := update_history E m response st in
    history r.2 !! sender m
    = Some (default [] (history st !! sender m) ++ [entry]) /\
    (forall s, s <> sender m -> history r.2 !! s = history st !! s) /\
    training_context r.2 = training_context st /\
    ((forall s l, history st !! s = Some l -> l <> []) ->
     forall s l, history r.2 !! s = Some l -> l <> []) /\
    (r.1 = Ok tt ->
     conversation_history_json (files r.2) = Some (Document (history r.2))).
Proof.
  eexists {| conv_timestamp := datetime_now E (log st) |}.
  rewrite update_history_run. cbv zeta. simpl.
  split; [reflexivity|]. split; [reflexivity|]. split; [reflexivity|].
  split; [apply lookup_insert_eq|].
  split; [intros s Hs; apply lookup_insert_ne; congruence|].
  split; [reflexivity|]. split.
  - intros Hinv s l. destruct (decide (s = sender m)) as [->|Hne].
    + rewrite lookup_insert_eq. intros [= <-].
      destruct (default [] (history st !! sender m)); discriminate.
    + rewrite lookup_insert_ne by congruence. apply Hinv.
  - destruct (write_history E _ _); try discriminate. reflexivity.
Qed.

Lemma update_history_appends_one_entry_witness :
  exists entry,
    conv_subject entry = Some "Question" /\
    conv_content entry = "How do I reset my password?" /\
    conv_response entry = Scenario.reply /\
    let r := update_history Scenario.fine Scenario.alice Scenario.reply
               Scenario.start in
    history r.2 !! "alice@example.com" = Some ([] ++ [entry]) /\
    (forall s, s <> "alice@example.com" ->
               history r.2 !! s = history Scenario.start !! s) /\
    training_context r.2 = training_context Scenario.start /\
    ((forall s l, history Scenario.start !! s = Some l -> l <> []) ->
     forall s l, history r.2 !! s = Some l -> l <> []) /\
    (r.1 = Ok tt ->
     conversation_history_json (files r.2) = Some (Document (history r.2))).
Proof.
  exact (update_history_appends_one_entry Scenario.fine Scenario.alice
           Scenario.reply Scenario.start).
Defined.

(** ** The draft publisher *)

Lemma last_select_app (a b : list event) :
  last_select (a ++ b) =
  match last_select b with Some s => Some s | None => last_select a end.
Proof.
  induction a as [|ev a IH]; simpl.
  - destruct (last_select b); reflexivity.
  - rewrite IH. destruct (last_select b); reflexivity.
Qed.

Lemma selected_mailbox_app (a b : list event) :
  selected_mailbox (a ++ b) =
  match selected_mailbox b with
  | Some mb => Some mb
  | None => selected_mailbox a
  end.
Proof.
  induction a as [|ev a IH]; simpl.
  - destruct (selected_mailbox b); reflexivity.
  - rewrite IH. destruct (selected_mailbox b); reflexivity.
Qed.

Section Publisher.
Context (E : environment) (cfg : config).

(** The loop over the folders issues the commands [folder_attempts]
    describes, and says whether one of them took the draft. *)
Lemma try_folders_run (folders : list string) (d : draft) (st : state) :
  exists evs winner,
    folder_attempts d folders evs winner /\
    try_folders E folders d st
    = (Ok (match winner with Some _ => true | None => false end),
       logged st evs).
Proof.
  revert st. induction folders as [|folder folders IH]; intros st.
  - exists [], None. split; [constructor|].
    simpl. rewrite logged_nil. reflexivity.
  - cbn [try_folders]. unfold bind at 1, try_except, bind.
    rewrite select_run.
    destruct (imap_select E (log st) folder) eqn:Hsel.
    + rewrite append_run. cbn [log logged].
      destruct (imap_append E (log st ++ [EvSelect folder true])
                  folder draft_flag d) eqn:Happ.
      * exists [EvSelect folder true; EvAppend folder draft_flag d true],
          (Some folder).
        split; [constructor|]. unfold ret. rewrite logged_logged.
        reflexivity.
      * unfold ret. rewrite logged_logged.
        match goal with
        | |- context [try_folders E folders d ?st1] =>
            destruct (IH st1) as [evs [winner [Hatt Hrun]]]
        end.
        exists (EvSelect folder true
                  :: EvAppend folder draft_flag d false :: evs), winner.
        split; [constructor; exact Hatt|].
        rewrite Hrun, logged_logged. reflexivity.
    + unfold ret.
      match goal with
      | |- context [try_folders E folders d ?st1] =>
          destruct (IH st1) as [evs [winner [Hatt Hrun]]]
      end.
      exists (EvSelect folder false :: evs), winner.
      split; [constructor; exact Hatt|].
      rewrite Hrun, logged_logged. reflexivity.
Qed.

Lemma save_draft_run (m : email) (response : string) (st : state) :
  exists attempts winner rest,
    save_draft E cfg m response st
    = (Ok tt, logged st (attempts ++ rest)) /\
    folder_attempts (compose_draft cfg m response) draft_folders
      attempts winner /\
    after_attempts (compose_draft cfg m response) winner rest.
Proof.
  unfold save_draft, try_except. unfold bind at 1.
  destruct (try_folders_run draft_folders (compose_draft cfg m response) st)
    as [attempts [winner [Hatt Hrun]]].
  rewrite Hrun. exists attempts, winner.
  destruct winner as [folder|]; cbn iota.
  - unfold bind, ret. rewrite select_run, logged_logged.
    destruct (imap_select E (log (logged st attempts)) "INBOX");
      (eexists; split; [reflexivity|]; split; [exact Hatt|]);
      eexists; reflexivity.
  - unfold bind. rewrite select_run.
    destruct (imap_select E (log (logged st attempts)) "INBOX") eqn:Hsel.
    + rewrite append_run.
      destruct (imap_append E _ "INBOX" draft_flag _) eqn:Happ.
      * rewrite select_run, !logged_logged, <- ?app_assoc.
        match goal with
        | |- context [imap_select E ?l "INBOX"] =>
            destruct (imap_select E l "INBOX")
        end;
          (eexists; split; [reflexivity|]; split; [exact Hatt|]);
          right; right; eexists; reflexivity.
      * unfold ret. rewrite !logged_logged, <- ?app_assoc.
        eexists. split; [reflexivity|]. split; [exact Hatt|].
        right. left. reflexivity.
    + unfold ret. rewrite !logged_logged.
      eexists. split; [reflexivity|]. split; [exact Hatt|].
      left. reflexivity.
Qed.
End Publisher.

(** The winner is one of the folders, the ones before it were tried and
    failed, and no command names a folder after it. *)
Lemma folder_attempts_winner (d : draft) (folders : list string)
    (evs : list event) (folder : string) :
  folder_attempts d folders evs (Some folder) ->
  exists tried later failed,
    folders = tried ++ folder :: later /\
    folder_attempts d tried failed None /\
    evs = failed ++ [EvSelect folder true; EvAppend folder draft_flag d true].
Proof.
  intros H. remember (Some folder) as w eqn:Hw.
  induction H as [| f fs evs w H IH | f fs evs w H IH | f fs]; subst.
  - discriminate.
  - destruct (IH eq_refl) as [tried [later [failed [-> [Hf ->]]]]].
    exists (f :: tried), later, (EvSelect f false :: failed).
    split; [reflexivity|]. split; [constructor; exact Hf | reflexivity].
  - destruct (IH eq_refl) as [tried [later [failed [-> [Hf ->]]]]].
    exists (f :: tried), later,
      (EvSelect f true :: EvAppend f draft_flag d false :: failed).
    split; [reflexivity|]. split; [constructor; exact Hf | reflexivity].
  - injection Hw as ->. exists [], fs, [].
    split; [reflexivity|]. split; [constructor | reflexivity].
Qed.

(** Attempts without a winner stored nothing. *)
Lemma folder_attempts_none_stored (d : draft) (folders : list string)
    (evs : list event) :
  folder_attempts d folders evs None -> ~ published evs.
Proof.
  intros H. remember None as w eqn:Hw.
  induction H as [| f fs evs w H IH | f fs evs w H IH | f fs]; subst;
    intros [mb [fl [d' Hin]]]; simpl in Hin.
  - exact Hin.
  - destruct Hin as [Hin | Hin]; [discriminate|].
    apply (IH eq_refl). exists mb, fl, d'. exact Hin.
  - destruct Hin as [Hin | [Hin | Hin]]; try discriminate.
    apply (IH eq_refl). exists mb, fl, d'. exact Hin.
  - discriminate.
Qed.



(** A server that refuses every append: the last resort is tried and fails
    too, and the operation still returns normally. *)
Example every_append_refused :
  let r := save_draft (Scenario.mailboxes (fun _ => true) (fun _ => false))
             Scenario.cfg Scenario.alice Scenario.reply Scenario.start in
  let d := compose_draft Scenario.cfg Scenario.alice Scenario.reply in
  r.1 = Ok tt /\
  log r.2 = [EvSelect "Drafts" true; EvAppend "Drafts" draft_flag d false;
             EvSelect "Draft" true; EvAppend "Draft" draft_flag d false;
             EvSelect "[Gmail]/Drafts" true;
             EvAppend "[Gmail]/Drafts" draft_flag d false;
             EvSelect "INBOX/Drafts" true;
             EvAppend "INBOX/Drafts" draft_flag d false;
             EvSelect "INBOX" true; EvAppend "INBOX" draft_flag d false].
Proof. split; reflexivity. Qed.

(** A server on which Drafts takes the draft and INBOX cannot be selected
    afterwards: the connection stays on Drafts. *)
Example inbox_not_selectable :
  let r := save_draft
             (Scenario.mailboxes (fun mb => negb (Scenario.is_inbox mb))
                (fun _ => true))
             Scenario.cfg Scenario.alice Scenario.reply Scenario.start in
  r.1 = Ok tt /\ selected_mailbox (log r.2) = Some "Drafts".
Proof. split; reflexivity. Qed.

(** The first two folders refuse the draft and the third takes it: the
    fourth is not tried. *)
Example third_folder_wins :
  log (snd (save_draft
              (Scenario.mailboxes
                 (fun _ => true)
                 (fun mb => String.eqb mb "[Gmail]/Drafts"))
              Scenario.cfg Scenario.alice Scenario.reply Scenario.start))
  = let d := compose_draft Scenario.cfg Scenario.alice Scenario.reply in
    [EvSelect "Drafts" true; EvAppend "Drafts" draft_flag d false;
     EvSelect "Draft" true; EvAppend "Draft" draft_flag d false;
     EvSelect "[Gmail]/Drafts" true;
     EvAppend "[Gmail]/Drafts" draft_flag d true;
     EvSelect "INBOX" true].
Proof. reflexivity. Qed.


(** ** Generation *)

Section Generation.
Context (E : environment) (cfg : config).

Lemma request_anthropic_run (m : email) (st : state) :
  exists evs,
    snd (request_anthropic E cfg m st) = logged st evs /\
    Forall is_backend_call evs.
Proof.
  unfold request_anthropic, required, make_request, call, emit, bind, get,
    ret, raise.
  destruct (cfg_claude_model_name cfg) as [model|]; cbn.
  - match goal with
    | |- context [anthropic_create E ?l ?rq] =>
        exists [EvAnthropic rq (anthropic_create E l rq)];
        split; [|repeat constructor];
        destruct (anthropic_create E l rq)
          as [[items | repr | [s|]] | err]; reflexivity
    end.
  - exists []. rewrite logged_nil. split; [reflexivity | constructor].
Qed.

Lemma request_openai_run (m : email) (st : state) :
  exists evs,
    snd (request_openai E cfg m st) = logged st evs /\
    Forall is_backend_call evs.
Proof.
  unfold request_openai, required, make_request, call, emit, bind, get,
    ret, raise.
  destruct (cfg_openai_model_name cfg) as [model|]; cbn.
  - match goal with
    | |- context [openai_create E ?l ?rq] =>
        exists [EvOpenAI rq (openai_create E l rq)];
        split; [|repeat constructor];
        destruct (openai_create E l rq)
          as [[|choice choices] | err]; reflexivity
    end.
  - exists []. rewrite logged_nil. split; [reflexivity | constructor].
Qed.

(** A [try] whose handler returns the error sentence always returns a
    string. *)
Lemma guarded_returns (body : M string) (st : state) :
  exists response,
    try_except body (fun _ => ret error_response) st
    = (Ok response, snd (body st)) /\
    (forall s, fst (body st) = Ok s -> response = s) /\
    (forall e, fst (body st) = Raise e -> response = error_response).
Proof.
  unfold try_except. destruct (body st) as [[s|e] st1]; simpl.
  - exists s. split; [reflexivity|]. split; [congruence | discriminate].
  - exists error_response. split; [reflexivity|].
    split; [discriminate | reflexivity].
Qed.

Lemma generate_response_anthropic_run (m : email) (st : state) :
  exists response evs,
    generate_response_anthropic E cfg m st
    = (Ok response, logged st evs) /\
    Forall is_backend_call evs.
Proof.
  destruct (guarded_returns (request_anthropic E cfg m) st)
    as [response [Hrun _]].
  destruct (request_anthropic_run m st) as [evs [Hst Hevs]].
  exists response, evs. unfold generate_response_anthropic.
  rewrite Hrun, Hst. auto.
Qed.
End Generation.

(** ** The processing loop *)

Section Loop.
Context (E : environment) (cfg : config).
Variable generate_response : email -> M string.

(** The body of the loop never raises. *)
Lemma process_email_returns (m : email) (st : state) :
  exists st', process_email E cfg generate_response m st = (Ok tt, st').
Proof.
  unfold process_email, try_except.
  destruct (bind _ _ st) as [[[]|e] st1]; eexists; reflexivity.
Qed.

(** A reply that is not usable ends the turn at once. *)
Lemma process_email_unusable (m : email) (st st1 : state)
    (response : string) :
  generate_response m st = (Ok response, st1) ->
  usable response = false ->
  process_email E cfg generate_response m st = (Ok tt, st1).
Proof.
  intros Hgen Huse. unfold process_email, try_except, bind.
  rewrite Hgen, Huse. reflexivity.
Qed.

(** With a usable reply the draft is published, the interaction recorded
    and, if that returned and the option allows it, the message flagged. *)
Lemma process_email_usable (m : email) (st st1 : state)
    (response : string) :
  generate_response m st = (Ok response, st1) ->
  usable response = true ->
  exists attempts winner rest h w,
    folder_attempts (compose_draft cfg m response) draft_folders
      attempts winner /\
    after_attempts (compose_draft cfg m response) winner rest /\
    exists st',
      process_email E cfg generate_response m st = (Ok tt, st') /\
      exists ts ok,
        log st' = log st1 ++ (attempts ++ rest)
                    ++ [EvNow ts; EvWriteHistory h w]
                    ++ match w with
                       | Written =>
                           if default true (cfg_mark_as_read cfg)
                           then [EvStore (uid m) ok] else []
                       | _ => []
                       end.
Proof.
  intros Hgen Huse.
  destruct (save_draft_run E cfg m response st1)
    as [attempts [winner [rest [Hdraft [Hatt Hrest]]]]].
  pose proof (update_history_run E m response
                (logged st1 (attempts ++ rest))) as Hupd.
  cbv zeta in Hupd.
  match type of Hupd with
  | context [EvWriteHistory ?h ?w] => exists attempts, winner, rest, h, w
  end.
  split; [exact Hatt|]. split; [exact Hrest|].
  unfold process_email, try_except. unfold bind at 1.
  rewrite Hgen, Huse. unfold bind at 1. rewrite Hdraft.
  unfold bind at 1. rewrite Hupd. clear Hupd.
  destruct (write_history E _ _) eqn:Hw.
  - destruct (default true (cfg_mark_as_read cfg)).
    + unfold mark_as_read. rewrite store_run. cbn [log logged].
      destruct (imap_store E _ (uid m)); eexists; (split; [reflexivity|]);
        do 2 eexists; cbn [log logged]; rewrite <- ?app_assoc;
        reflexivity.
    + eexists. split; [reflexivity|]. eexists. exists true.
      cbn [log logged]. rewrite <- ?app_assoc. reflexivity.
  - eexists. split; [reflexivity|]. eexists. exists true.
    cbn [log logged]. rewrite <- ?app_assoc. reflexivity.
  - eexists. split; [reflexivity|]. eexists. exists true.
    cbn [log logged]. rewrite <- ?app_assoc. reflexivity.
Qed.

Lemma process_emails_app (before after : list email) (st : state) :
  process_emails E cfg generate_response (before ++ after) st
  = process_emails E cfg generate_response after
      (snd (process_emails E cfg generate_response before st)).
Proof.
  revert st. induction before as [|m before IH]; intros st;
    [reflexivity|].
  cbn [process_emails app]. unfold bind.
  destruct (process_email_returns m st) as [st' Hrun]. rewrite Hrun.
  apply IH.
Qed.
End Loop.

Lemma folder_attempts_mailbox (d : draft) (folders : list string)
    (evs : list event) (winner : option string) :
  folder_attempts d folders evs winner -> Forall is_mailbox_command evs.
Proof. induction 1; repeat constructor; assumption. Qed.

Lemma after_attempts_mailbox (d : draft) (winner : option string)
    (rest : list event) :
  after_attempts d winner rest -> Forall is_mailbox_command rest.
Proof.
  unfold after_attempts. destruct winner.
  - intros [ok ->]. repeat constructor.
  - intros [-> | [-> | [ok ->]]]; repeat constructor.
Qed.

Lemma backend_calls_flag_nothing (evs : list event) :
  Forall is_backend_call evs ->
  ~ append_issued evs /\ ~ record_issued evs /\
  (forall u, ~ flag_issued u evs) /\ ~ published evs.
Proof.
  rewrite Forall_forall. intros Hall.
  repeat split.
  - intros [mb [fl [d [ok Hin]]]].
    apply list_elem_of_In, Hall in Hin. exact Hin.
  - intros [h [w Hin]]. apply list_elem_of_In, Hall in Hin. exact Hin.
  - intros u [ok Hin]. apply list_elem_of_In, Hall in Hin. exact Hin.
  - intros [mb [fl [d Hin]]]. apply list_elem_of_In, Hall in Hin. exact Hin.
Qed.

Lemma mailbox_commands_flag_nothing (evs : list event) (ev : event) :
  Forall is_mailbox_command evs -> In ev evs ->
  match ev with
  | EvStore _ _ | EvWriteHistory _ _ => False
  | _ => True
  end.
Proof.
  rewrite Forall_forall. intros Hall Hin.
  apply list_elem_of_In, Hall in Hin. destruct ev; tauto.
Qed.

Lemma backend_calls_only (evs : list event) (ev : event) :
  Forall is_backend_call evs -> In ev evs ->
  match ev with
  | EvAnthropic _ _ | EvOpenAI _ _ => True
  | _ => False
  end.
Proof.
  rewrite Forall_forall. intros Hall Hin.
  apply list_elem_of_In, Hall in Hin. exact Hin.
Qed.

(** C1, as the code has it. The flag command is sent for a processed
    message only if the Responder gave a usable reply, the history record
    was written and mark_as_read is not switched off; when these hold and
    the draft was published, the command is sent. So a message is never
    flagged after a Responder failure or a record failure. *)
Theorem read_flag_needs_reply_and_record
    (E : environment) (cfg : config) (m : email) (st : state) :
  exists response st1 st' evs,
    generate_response_anthropic E cfg m st = (Ok response, st1) /\
    process_email E cfg (generate_response_anthropic E cfg) m st
    = (Ok tt, st') /\
    log st' = log st ++ evs /\
    (flagged (uid m) evs -> flag_issued (uid m) evs) /\
    (flag_issued (uid m) evs ->
     usable response = true /\ recorded evs /\
     default true (cfg_mark_as_read cfg) = true) /\
    (usable response = true -> published evs -> recorded evs ->
     default true (cfg_mark_as_read cfg) = true ->
     flag_issued (uid m) evs).
Proof.
  destruct (generate_response_anthropic_run E cfg m st)
    as [response [evs_g [Hgen Hback]]].
  exists response, (logged st evs_g).
  destruct (usable response) eqn:Huse.
  - destruct (process_email_usable E cfg _ m st _ response Hgen Huse)
      as [attempts [winner [rest [h [w [Hatt [Hrest
            [st' [Hrun [ts [ok Hlog]]]]]]]]]]].
    pose proof (folder_attempts_mailbox _ _ _ _ Hatt) as Hmb1.
    pose proof (after_attempts_mailbox _ _ _ Hrest) as Hmb2.
    exists st'. eexists. split; [exact Hgen|]. split; [exact Hrun|].
    split; [rewrite Hlog; cbn [log logged]; rewrite <- app_assoc;
            reflexivity|].
    split; [intros Hf; exists true; exact Hf|].
    split.
    + intros [ok' Hin].
      rewrite !in_app_iff in Hin.
      destruct Hin as [Hin | [[Hin | Hin] | [Hin | Hin]]].
      * exfalso. apply (backend_calls_only _ _ Hback Hin).
      * exfalso. apply (mailbox_commands_flag_nothing _ _ Hmb1 Hin).
      * exfalso. apply (mailbox_commands_flag_nothing _ _ Hmb2 Hin).
      * simpl in Hin. destruct Hin as [Hin | [Hin | Hin]];
          [discriminate | discriminate | exfalso; exact Hin].
      * destruct w; try (exfalso; exact Hin).
        destruct (default true (cfg_mark_as_read cfg));
          [|exfalso; exact Hin].
        split; [reflexivity|]. split; [|reflexivity].
        exists h. rewrite !in_app_iff. simpl. tauto.
    + intros _ _ [h' Hin] Hmark.
      rewrite !in_app_iff in Hin.
      destruct Hin as [Hin | [[Hin | Hin] | [Hin | Hin]]].
      * exfalso. apply (backend_calls_only _ _ Hback Hin).
      * exfalso. apply (mailbox_commands_flag_nothing _ _ Hmb1 Hin).
      * exfalso. apply (mailbox_commands_flag_nothing _ _ Hmb2 Hin).
      * simpl in Hin. destruct Hin as [Hin | [Hin | Hin]];
          [discriminate | | exfalso; exact Hin].
        injection Hin as -> ->. rewrite Hmark. exists ok.
        rewrite !in_app_iff. simpl. tauto.
      * exfalso. destruct w; simpl in Hin; try exact Hin.
        rewrite Hmark in Hin. simpl in Hin.
        destruct Hin as [Hin | Hin]; [discriminate | exact Hin].
  - exists (logged st evs_g), evs_g.
    split; [exact Hgen|].
    split; [apply (process_email_unusable E cfg _ m st _ response Hgen Huse)|].
    split; [reflexivity|].
    split; [intros Hf; exists true; exact Hf|].
    split; [|discriminate].
    intros Hflag. exfalso.
    apply (backend_calls_flag_nothing _ Hback) in Hflag. exact Hflag.
Qed.

Lemma read_flag_needs_reply_and_record_witness :
  exists response st1 st' evs,
    generate_response_anthropic Scenario.fine Scenario.cfg Scenario.alice
      Scenario.start = (Ok response, st1) /\
    process_email Scenario.fine Scenario.cfg
      (generate_response_anthropic Scenario.fine Scenario.cfg)
      Scenario.alice Scenario.start = (Ok tt, st') /\
    log st' = log Scenario.start ++ evs /\
    (flagged "1" evs -> flag_issued "1" evs) /\
    (flag_issued "1" evs ->
     usable response = true /\ recorded evs /\
     default true (cfg_mark_as_read Scenario.cfg) = true) /\
    (usable response = true -> published evs -> recorded evs ->
     default true (cfg_mark_as_read Scenario.cfg) = true ->
     flag_issued "1" evs).
Proof.
  exact (read_flag_needs_reply_and_record Scenario.fine Scenario.cfg
           Scenario.alice Scenario.start).
Defined.

(** C1 as stated fails: with [mark_as_read: false] the draft is published
    and the interaction recorded, and the message is not flagged. *)
Lemma published_and_recorded_yet_unflagged :
  let evs := log (snd (process_email Scenario.fine Scenario.cfg_keep_unread
                         (generate_response_anthropic Scenario.fine
                            Scenario.cfg_keep_unread)
                         Scenario.alice Scenario.start)) in
  published evs /\ recorded evs /\ ~ flagged "1" evs.
Proof.
  cbv zeta. split; [|split].
  - exists "Drafts", draft_flag,
      (compose_draft Scenario.cfg_keep_unread Scenario.alice Scenario.reply).
    vm_compute. tauto.
  - eexists. vm_compute. do 5 right. left. reflexivity.
  - unfold flagged. vm_compute.
    intros Hin. repeat (destruct Hin as [Hin | Hin]; [discriminate|]).
    exact Hin.
Qed.

(** The first scenario of the specification: an unseen message from Alice,
    no history, no examples. *)
Example alice_is_answered :
  let r := run_cycle Scenario.fine Scenario.cfg
             (generate_response_anthropic Scenario.fine Scenario.cfg)
             "UNSEEN" Scenario.start in
  let d := compose_draft Scenario.cfg Scenario.alice Scenario.reply in
  exists rq h,
    log r.2 = [EvSearch "UNSEEN" (Some ["1"]);
               EvFetch "1" (Some Scenario.alice_message);
               EvAnthropic rq (Replies (ContentList [TextItem Scenario.reply]));
               EvSelect "Drafts" true; EvAppend "Drafts" draft_flag d true;
               EvSelect "INBOX" true;
               EvNow "2024-01-01T10:00:00"; EvWriteHistory h Written;
               EvStore "1" true] /\
    history r.2 !! "alice@example.com"
    = Some [{| conv_timestamp := "2024-01-01T10:00:00";
               conv_subject := Some "Question";
               conv_content := "How do I reset my password?";
               conv_response := Scenario.reply |}].
Proof. cbv zeta. do 2 eexists. split; vm_compute; reflexivity. Qed.

(** C7. When the Responder fails on a candidate, at whatever place of the
    batch, the turn for that candidate ends without an exception, having
    issued no append, no history write and no flag command and having left
    history, files and training context as they were; the rest of the
    batch is then processed from that state. *)
Theorem responder_failure_skips_only_that_message
    (E : environment) (cfg : config) (before : list email) (m : email)
    (after : list email) (st : state) (e : string) (st2 : state) :
  let gen := generate_response_anthropic E cfg in
  let st1 := snd (process_emails E cfg gen before st) in
  request_anthropic E cfg m st1 = (Raise e, st2) ->
  process_email E cfg gen m st1 = (Ok tt, st2) /\
  history st2 = history st1 /\
  files st2 = files st1 /\
  training_context st2 = training_context st1 /\
  (exists evs,
      log st2 = log st1 ++ evs /\
      ~ published evs /\ ~ append_issued evs /\ ~ record_issued evs /\
      forall u, ~ flag_issued u evs) /\
  process_emails E cfg gen (before ++ m :: after) st
  = process_emails E cfg gen after st2.
Proof.
  intros gen st1 Hfail.
  assert (gen m st1 = (Ok error_response, st2)) as Hgen.
  { unfold gen, generate_response_anthropic, try_except.
    rewrite Hfail. reflexivity. }
  assert (process_email E cfg gen m st1 = (Ok tt, st2)) as Hrun.
  { apply (process_email_unusable E cfg gen m st1 st2 error_response Hgen).
    reflexivity. }
  destruct (request_anthropic_run E cfg m st1) as [evs [Hst Hback]].
  rewrite Hfail in Hst. simpl in Hst. subst st2.
  split; [exact Hrun|]. repeat (split; [reflexivity|]). split.
  - exists evs. split; [reflexivity|].
    destruct (backend_calls_flag_nothing evs Hback) as [Ha [Hr [Hf Hp]]].
    auto.
  - rewrite process_emails_app. fold st1.
    cbn [process_emails]. unfold bind. rewrite Hrun. reflexivity.
Qed.

(** The backend fails for Alice and answers for Bob: Alice's message is
    left alone and Bob's is processed. *)
Lemma responder_failure_skips_only_that_message_witness :
  let E := Scenario.failing_once in
  let gen := generate_response_anthropic E Scenario.cfg in
  let st2 := snd (request_anthropic E Scenario.cfg Scenario.alice
                    Scenario.start) in
  process_email E Scenario.cfg gen Scenario.alice Scenario.start
  = (Ok tt, st2) /\
  history st2 = history Scenario.start /\
  files st2 = files Scenario.start /\
  training_context st2 = training_context Scenario.start /\
  (exists evs,
      log st2 = log Scenario.start ++ evs /\
      ~ published evs /\ ~ append_issued evs /\ ~ record_issued evs /\
      forall u, ~ flag_issued u evs) /\
  process_emails E Scenario.cfg gen ([] ++ Scenario.alice :: [Scenario.bob])
    Scenario.start
  = process_emails E Scenario.cfg gen [Scenario.bob] st2.
Proof.
  exact (responder_failure_skips_only_that_message Scenario.failing_once
           Scenario.cfg [] Scenario.alice [Scenario.bob] Scenario.start
           "overloaded" _ eq_refl).
Defined.

Example bob_is_answered_after_alice_failed :
  let E := Scenario.failing_once in
  let r := process_emails E Scenario.cfg
             (generate_response_anthropic E Scenario.cfg)
             [Scenario.alice; Scenario.bob] Scenario.start in
  let d := compose_draft Scenario.cfg Scenario.bob Scenario.reply in
  exists rq1 rq2 h,
    log r.2 = [EvAnthropic rq1 (BackendRaises "overloaded");
               EvAnthropic rq2 (Replies (ContentList [TextItem Scenario.reply]));
               EvSelect "Drafts" true; EvAppend "Drafts" draft_flag d true;
               EvSelect "INBOX" true;
               EvNow "2024-01-01T10:00:00"; EvWriteHistory h Written;
               EvStore "2" true] /\
    history r.2 !! "alice@example.com" = None.
Proof. cbv zeta. do 3 eexists. split; vm_compute; reflexivity. Qed.



(** ** The other loops of the repository *)

(** The loop of the OpenAI class has no test of the reply: when the backend
    fails, the error sentence is published as the draft, recorded in the
    history, and the message is flagged. *)
Example openai_loop_drafts_error_sentence :
  let E := Scenario.answering (BackendRaises "rate limit")
             (BackendRaises "rate limit") in
  let r := process_email_openai E Scenario.cfg Scenario.alice
             Scenario.start in
  let d := compose_draft Scenario.cfg Scenario.alice error_response in
  exists rq h,
    log r.2 = [EvOpenAI rq (BackendRaises "rate limit");
               EvSelect "Drafts" true; EvAppend "Drafts" draft_flag d true;
               EvSelect "INBOX" true;
               EvNow "2024-01-01T10:00:00"; EvWriteHistory h Written;
               EvStore "1" true].
Proof. cbv zeta. do 2 eexists. vm_compute. reflexivity. Qed.

(** The walk goes depth first, and the class takes the first plain-text
    part it meets; the stand-alone script joins all of them. *)
Example newsletter_body :
  extract_content Scenario.newsletter = Ok "Hello" /\
  Standalone.extract_content Scenario.newsletter = Ok "HelloUnsubscribe" /\
  extract_content (Multipart "multipart/mixed" [Leaf "text/html" (Some "x")])
  = Ok "".
Proof. repeat split; reflexivity. Qed.

(** The stand-alone script has no sentence for a sender without history. *)
Example standalone_history_of_unknown_sender :
  Standalone._get_relevant_history [] "alice@example.com" = "" /\
  _get_relevant_history ∅ "alice@example.com" = no_history.
Proof. split; reflexivity. Qed.

(** Of seven examples the block takes the five with the latest time stamps;
    the three of 2024-01-03 keep the order in which they were stored. *)
Example recent_examples_of_samples :
  map ex_subject (recent_examples Scenario.samples)
  = [Some "c"; Some "g"; Some "a"; Some "d"; Some "f"].
Proof. reflexivity. Qed.

(** A slice from [-5] of a longer, an equal and a shorter list. *)
Example slice_last_five :
  Py.slice_from (-5) [1; 2; 3; 4; 5; 6; 7] = [3; 4; 5; 6; 7] /\
  Py.slice_from (-5) [1; 2; 3; 4; 5] = [1; 2; 3; 4; 5] /\
  Py.slice_from (-5) [1; 2] = [1; 2] /\
  Py.slice_from (-5) (@nil nat) = [].
Proof. repeat split; reflexivity. Qed.

(** * More of the code *)

(** ** Loading and saving the two documents *)

Section Documents.
Context (E : environment).

Lemma save_training_context_run (st : state) :
  let t := training_context st in
  let w := write_training E (log st) t in
  save_training_context E st =
  (match w with Written => Ok tt | _ => Raise "OSError" end,
   {| history := history st;
      training_context := t;
      files := match w with
               | Written => with_training (files st) (Some (Document t))
               | OpenFails => files st
               | DumpFails => with_training (files st) (Some Garbled)
               end;
      log := log st ++ [EvWriteTraining t w] |}).
Proof.
  cbv zeta. unfold save_training_context, call, emit, bind, get, set_files,
    raise, ret. cbn.
  destruct (write_training E (log st) (training_context st));
    reflexivity.
Qed.

Lemma save_history_run (st : state) :
  let h := history st in
  let w := write_history E (log st) h in
  save_history E st =
  (match w with Written => Ok tt | _ => Raise "OSError" end,
   {| history := h;
      training_context := training_context st;
      files := match w with
               | Written => with_history (files st) (Some (Document h))
               | OpenFails => files st
               | DumpFails => with_history (files st) (Some Garbled)
               end;
      log := log st ++ [EvWriteHistory h w] |}).
Proof.
  cbv zeta. unfold save_history, call, emit, bind, get, set_files,
    raise, ret. cbn.
  destruct (write_history E (log st) (history st)); reflexivity.
Qed.

Lemma add_example_response_run (m : email) (final_response : string)
    (st : state) :
  let ts := datetime_now E (log st) in
  let t := {| system_prompt := system_prompt (training_context st);
              additional_instructions :=
                additional_instructions (training_context st);
              example_responses :=
                example_responses (training_context st)
                  ++ [{| ex_timestamp := ts; ex_sender := sender m;
                         ex_subject := subject m;
                         ex_original_content := content m;
                         ex_response := final_response |}] |} in
  let w := write_training E (log st ++ [EvNow ts]) t in
  add_example_response E m final_response st =
  (match w with Written => Ok tt | _ => Raise "OSError" end,
   {| history := history st;
      training_context := t;
      files := match w with
               | Written => with_training (files st) (Some (Document t))
               | OpenFails => files st
               | DumpFails => with_training (files st) (Some Garbled)
               end;
      log := log st ++ [EvNow ts; EvWriteTraining t w] |}).
Proof.
  intros ts t w. subst w.
  unfold add_example_response, now, save_training_context, call, emit, bind,
    get, set_training_context, set_files, raise, ret.
  cbn. fold ts. fold t.
  destruct (write_training E (log st ++ [EvNow ts]) t);
    unfold logged; cbn; rewrite <- ?app_assoc; reflexivity.
Qed.
End Documents.

Lemma load_history_stored
    (E : environment) (st : state) (h : gmap string (list conversation)) :
  conversation_history_json (files st) = Some (Document h) ->
  load_history E st =
  (Ok tt, {| history := h; training_context := training_context st;
             files := files st; log := log st |}).
Proof.
  intros Hfile. unfold load_history, bind, get. rewrite Hfile. reflexivity.
Qed.

(** X1. On a disk without training_context.json the loaded context is the
    system prompt of the configuration (empty without one) with no
    instructions and no examples, and it is written out at once. From then
    on a start on that disk loads this context and writes nothing, whatever
    system prompt the configuration then has. *)
Theorem first_load_creates_training_context
    (E : environment) (cfg : config) (st st1 : state) :
  training_context_json (files st) = None ->
  load_training_context E cfg st = (Ok tt, st1) ->
  training_context st1
  = {| system_prompt := default "" (cfg_system_prompt cfg);
       additional_instructions := [];
       example_responses := [] |} /\
  training_context_json (files st1)
  = Some (Document (training_context st1)) /\
  conversation_history_json (files st1)
  = conversation_history_json (files st) /\
  forall (E' : environment) (cfg' : config) (fresh : state),
    files fresh = files st1 ->
    load_training_context E' cfg' fresh
    = (Ok tt, {| history := history fresh;
                 training_context := training_context st1;
                 files := files fresh; log := log fresh |}).
Proof.
  intros Hnone. unfold load_training_context at 1. unfold bind at 1, get.
  rewrite Hnone. unfold bind, set_training_context.
  rewrite save_training_context_run. cbv zeta. cbn [training_context log files].
  destruct (write_training E _ _); try discriminate.
  intros [= <-]. cbn. repeat split.
  intros E' cfg' fresh Hfiles.
  apply load_training_context_stored. rewrite Hfiles. reflexivity.
Qed.

Lemma first_load_creates_training_context_witness :
  let st1 := snd (load_training_context Scenario.fine Scenario.cfg
                    Scenario.start) in
  training_context st1
  = {| system_prompt := "You answer e-mail.";
       additional_instructions := [];
       example_responses := [] |} /\
  training_context_json (files st1)
  = Some (Document (training_context st1)) /\
  conversation_history_json (files st1) = None /\
  forall (E' : environment) (cfg' : config) (fresh : state),
    files fresh = files st1 ->
    load_training_context E' cfg' fresh
    = (Ok tt, {| history := history fresh;
                 training_context := training_context st1;
                 files := files fresh; log := log fresh |}).
Proof.
  exact (first_load_creates_training_context Scenario.fine Scenario.cfg
           Scenario.start _ eq_refl eq_refl).
Defined.

(** X2. When [update_history] returns, a process that starts afresh on the
    same disk loads exactly the history the first one holds in memory, and
    writes nothing. *)
Theorem update_history_survives_reload
    (E : environment) (m : email) (response : string) (st st1 : state) :
  update_history E m response st = (Ok tt, st1) ->
  forall (E' : environment) (fresh : state),
    files fresh = files st1 ->
    load_history E' fresh
    = (Ok tt, {| history := history st1;
                 training_context := training_context fresh;
                 files := files fresh; log := log fresh |}).
Proof.
  rewrite update_history_run. cbv zeta.
  destruct (write_history E _ _); try discriminate.
  intros [= <-] E' fresh Hfiles.
  apply load_history_stored. rewrite Hfiles. reflexivity.
Qed.

Lemma update_history_survives_reload_witness :
  let st1 := snd (update_history Scenario.fine Scenario.alice Scenario.reply
                    Scenario.start) in
  let fresh := {| history := ∅;
                  training_context := training_context Scenario.start;
                  files := files st1; log := [] |} in
  load_history Scenario.fine fresh
  = (Ok tt, {| history := history st1;
               training_context := training_context fresh;
               files := files fresh; log := log fresh |}).
Proof.
  exact (update_history_survives_reload Scenario.fine Scenario.alice
           Scenario.reply Scenario.start _ eq_refl Scenario.fine
           {| history := ∅;
              training_context := training_context Scenario.start;
              files := files (snd (update_history Scenario.fine
                                     Scenario.alice Scenario.reply
                                     Scenario.start));
              log := [] |} eq_refl).
Defined.

(** X3. When [add_example_response] returns, a process that starts afresh
    on the same disk loads a training context whose examples are the ones
    held before, in their order, followed by one made of sender, subject
    and content of the e-mail and of the final response; prompt and
    instructions are as they were. *)
Theorem add_example_response_survives_reload
    (E : environment) (m : email) (final_response : string)
    (st st1 : state) :
  add_example_response E m final_response st = (Ok tt, st1) ->
  forall (E' : environment) (cfg' : config) (fresh : state),
    files fresh = files st1 ->
    exists ts loaded,
      load_training_context E' cfg' fresh = (Ok tt, loaded) /\
      example_responses (training_context loaded)
      = example_responses (training_context st)
          ++ [{| ex_timestamp := ts; ex_sender := sender m;
                 ex_subject := subject m;
                 ex_original_content := content m;
                 ex_response := final_response |}] /\
      system_prompt (training_context loaded)
      = system_prompt (training_context st) /\
      additional_instructions (training_context loaded)
      = additional_instructions (training_context st).
Proof.
  rewrite add_example_response_run. cbv zeta.
  set (ts := datetime_now E (log st)).
  set (t := {| system_prompt := _ |}).
  destruct (write_training E (log st ++ [EvNow ts]) t); try discriminate.
  intros [= <-] E' cfg' fresh Hfiles.
  exists ts. eexists. split.
  - apply load_training_context_stored. rewrite Hfiles. reflexivity.
  - simpl. auto.
Qed.

Lemma add_example_response_survives_reload_witness :
  exists ts loaded,
    load_training_context Scenario.fine Scenario.cfg
      (snd (add_example_response Scenario.fine Scenario.alice "Done."
              Scenario.start))
    = (Ok tt, loaded) /\
    example_responses (training_context loaded)
    = [] ++ [{| ex_timestamp := ts; ex_sender := "alice@example.com";
                ex_subject := Some "Question";
                ex_original_content := "How do I reset my password?";
                ex_response := "Done." |}] /\
    system_prompt (training_context loaded) = "You answer e-mail." /\
    additional_instructions (training_context loaded) = [].
Proof.
  exact (add_example_response_survives_reload Scenario.fine Scenario.alice
           "Done." Scenario.start _ eq_refl Scenario.fine Scenario.cfg _
           eq_refl).
Defined.

(** X4. [add_instruction] holds the new instruction in memory whether or
    not the write succeeds, and never touches the history. When it raises,
    the training file is either as it was or no longer readable; in the
    second case every later start on that disk fails while loading, and
    leaves the file as it is. *)
Theorem add_instruction_failed_write
    (E : environment) (text : string) (st : state) :
  let r := add_instruction E text st in
  (exists ts,
      additional_instructions (training_context r.2)
      = additional_instructions (training_context st)
          ++ [{| inst_timestamp := ts; inst_instruction := text |}]) /\
  history r.2 = history st /\
  conversation_history_json (files r.2)
  = conversation_history_json (files st) /\
  (r.1 <> Ok tt ->
   training_context_json (files r.2) = training_context_json (files st) \/
   (training_context_json (files r.2) = Some Garbled /\
    forall (E' : environment) (cfg' : config) (fresh : state),
      files fresh = files r.2 ->
      load_training_context E' cfg' fresh = (Raise "JSONDecodeError", fresh))).
Proof.
  cbv zeta. rewrite add_instruction_run. cbv zeta. cbn [fst snd].
  split; [eexists; reflexivity|].
  split; [reflexivity|].
  destruct (write_training E _ _); cbn.
  - split; [reflexivity|]. intros H. exfalso. apply H. reflexivity.
  - split; [reflexivity|]. intros _. left. reflexivity.
  - split; [reflexivity|]. intros _. right. split; [reflexivity|].
    intros E' cfg' fresh Hfiles.
    unfold load_training_context, bind, get. rewrite Hfiles. reflexivity.
Qed.

Lemma add_instruction_failed_write_witness :
  let r := add_instruction (Cases.writing DumpFails) "Be brief."
             Scenario.start in
  r.1 <> Ok tt /\
  training_context_json (files r.2) = Some Garbled /\
  additional_instructions (training_context r.2)
  = [{| inst_timestamp := "2024-01-01T10:00:00";
        inst_instruction := "Be brief." |}] /\
  load_training_context Scenario.fine Scenario.cfg r.2
  = (Raise "JSONDecodeError", r.2).
Proof.
  cbv zeta.
  pose proof (add_instruction_failed_write (Cases.writing DumpFails)
                "Be brief." Scenario.start) as [_ [_ [_ Hfail]]].
  assert ((add_instruction (Cases.writing DumpFails) "Be brief."
             Scenario.start).1 <> Ok tt) as Hraise by discriminate.
  split; [exact Hraise|].
  destruct (Hfail Hraise) as [Hsame | [Hgarbled Hload]]; [discriminate|].
  split; [exact Hgarbled|]. split; [reflexivity|].
  apply Hload. reflexivity.
Defined.

(** ** History and prompt *)

Lemma slice_from_snoc {A} (n : nat) (l : list A) (x : A) :
  Py.slice_from (- Z.of_nat (S (S n))) (l ++ [x])
  = Py.slice_from (- Z.of_nat (S n)) l ++ [x].
Proof.
  rewrite !slice_from_neg by lia. rewrite length_app. simpl.
  replace (length l + 1 - S (S n)) with (length l - S n) by lia.
  apply drop_app_le. lia.
Qed.

Lemma render_history_snoc (l : list conversation) (conv : conversation) :
  render_history (l ++ [conv])
  = render_history l +:+ render_conversation conv.
Proof. unfold render_history. rewrite fold_left_app. reflexivity. Qed.


Lemma full_system_prompt_lines (t : training) :
  full_system_prompt t
  = system_prompt t +:+ nl +:+ nl +:+
    match additional_instructions t with
    | [] => ""
    | insts => "Additional Instructions:" +:+ nl +:+
               String.concat "" (map instruction_line insts)
    end.
Proof.
  unfold full_system_prompt.
  destruct (additional_instructions t) as [|inst insts].
  - rewrite !append_empty_r. reflexivity.
  - change (fun p inst0 => p +:+ "- " +:+ inst_instruction inst0 +:+ nl)
      with (fun p inst0 => p +:+ instruction_line inst0).
    rewrite fold_append, !append_assoc. reflexivity.
Qed.

Lemma concat_snoc {A} (f : A -> string) (l : list A) (x : A) :
  String.concat "" (map f (l ++ [x])) = String.concat "" (map f l) +:+ f x.
Proof.
  pose proof (fold_append f (l ++ [x]) "") as H1.
  pose proof (fold_append f l "") as H2.
  rewrite fold_left_app in H1. simpl in H1. rewrite H2 in H1.
  rewrite !append_nil in H1. symmetry. exact H1.
Qed.

(** X6. After [add_instruction], whether or not the write succeeded, the
    system prompt built for the backend is the stored prompt, an empty
    line, the heading, one line for each instruction held before, in their
    order, and a last line for the new instruction. *)
Theorem added_instruction_ends_system_prompt
    (E : environment) (text : string) (st : state) :
  let t := training_context st in
  full_system_prompt (training_context (snd (add_instruction E text st)))
  = system_prompt t +:+ nl +:+ nl +:+
    "Additional Instructions:" +:+ nl +:+
    String.concat "" (map instruction_line (additional_instructions t)) +:+
    "- " +:+ text +:+ nl.
Proof.
  cbv zeta. rewrite add_instruction_run. cbv zeta.
  cbn [snd training_context]. rewrite full_system_prompt_lines.
  cbn [system_prompt additional_instructions].
  destruct (additional_instructions (training_context st) ++ _) eqn:Hl.
  - apply app_eq_nil in Hl as [_ Hl]. discriminate.
  - rewrite <- Hl, concat_snoc. reflexivity.
Qed.

(** ** Fetching *)

Lemma fetched_numbers_app (a b : list event) :
  fetched_numbers (a ++ b) = fetched_numbers a ++ fetched_numbers b.
Proof.
  induction a as [|ev a IH]; [reflexivity|].
  destruct ev; simpl; rewrite IH; reflexivity.
Qed.

Section FetchingMore.
Context (E : environment) (cfg : config).

Lemma read_message_uid (num : string) (m : message) (e : email) :
  read_message cfg num m = Ok (Some e) -> uid e = num.
Proof.
  unfold read_message.
  destruct (blacklisted cfg (msg_from m)); [discriminate|].
  destruct (match msg_reply_to m with
            | Some r => Py.truthy r && blacklisted cfg r
            | None => false
            end); [discriminate|].
  destruct (extract_content (msg_body m)); [|discriminate].
  intros [= <-]. reflexivity.
Qed.

(** One turn of the loop sends one fetch and returns, with a candidate that
    carries the number or with none. *)
Lemma fetch_message_one_fetch (num : string) (st : state) :
  exists r o,
    fetch_message E cfg num st = (Ok o, logged st [EvFetch num r]) /\
    forall e, o = Some e -> uid e = num.
Proof.
  exists (imap_fetch E (log st) num).
  unfold fetch_message, try_except, bind. rewrite fetch_run.
  destruct (imap_fetch E (log st) num) as [m|].
  - unfold lift. destruct (read_message cfg num m) as [o|err] eqn:Hread.
    + exists o. split; [reflexivity|]. intros e ->.
      eapply read_message_uid. exact Hread.
    + exists None. split; [reflexivity | discriminate].
  - exists None. split; [reflexivity | discriminate].
Qed.

Lemma fetch_loop_one_fetch_each (nums : list string) (emails : list email)
    (st : state) :
  exists new evs,
    fetch_loop E cfg nums emails st = (Ok (emails ++ new), logged st evs) /\
    fetched_numbers evs = nums /\
    Forall is_search_or_fetch evs /\
    sublist (map uid new) nums.
Proof.
  revert emails st. induction nums as [|num nums IH]; intros emails st.
  - exists [], []. simpl. rewrite app_nil_r, logged_nil.
    repeat split; constructor.
  - destruct (fetch_message_one_fetch num st) as [r [o [Hrun Huid]]].
    cbn [fetch_loop]. unfold bind at 1. rewrite Hrun.
    match goal with
    | |- context [fetch_loop E cfg nums ?acc ?st1] =>
        destruct (IH acc st1) as [new [evs [Hrest [Hnums [Hkind Hsub]]]]]
    end.
    rewrite Hrest, logged_logged.
    destruct o as [e|].
    + exists (e :: new), ([EvFetch num r] ++ evs).
      rewrite <- app_assoc. split; [reflexivity|].
      split; [simpl; rewrite Hnums; reflexivity|].
      split; [constructor; [exact I | exact Hkind]|].
      simpl. rewrite (Huid e eq_refl). constructor. exact Hsub.
    + exists new, ([EvFetch num r] ++ evs).
      split; [reflexivity|].
      split; [simpl; rewrite Hnums; reflexivity|].
      split; [constructor; [exact I | exact Hkind]|].
      constructor. exact Hsub.
Qed.
End FetchingMore.

Lemma get_new_emails_outcome
    (E : environment) (cfg : config) (criteria : string) (st : state) :
  match imap_search E (log st) criteria with
  | None =>
      get_new_emails E cfg criteria st
      = (Raise "imap.search", logged st [EvSearch criteria None])
  | Some nums =>
      exists emails evs,
        get_new_emails E cfg criteria st
        = (Ok emails, logged st (EvSearch criteria (Some nums) :: evs)) /\
        fetched_numbers evs = nums /\
        Forall is_search_or_fetch evs /\
        sublist (map uid emails) nums
  end.
Proof.
  unfold get_new_emails, search, bind. rewrite call_run.
  destruct (imap_search E (log st) criteria) as [nums|]; [|reflexivity].
  cbn [ret].
  match goal with
  | |- context [fetch_loop E cfg nums [] ?st1] =>
      destruct (fetch_loop_one_fetch_each E cfg nums [] st1)
        as [new [evs [Hrun [Hnums [Hkind Hsub]]]]]
  end.
  exists new, evs. rewrite Hrun, logged_logged. auto.
Qed.

(** X7. [get_new_emails] raises only when the search raises, and then it
    has done nothing else. Otherwise it returns, whatever the fetches did
    and whatever the bodies are: it sent one fetch for each number of the
    search result, in that order, and no other command, and the uids of the
    candidates are some of these numbers, in their order. *)
Theorem get_new_emails_isolates_failures
    (E : environment) (cfg : config) (criteria : string) (st : state) :
  match imap_search E (log st) criteria with
  | None =>
      get_new_emails E cfg criteria st
      = (Raise "imap.search", logged st [EvSearch criteria None])
  | Some nums =>
      exists emails evs,
        get_new_emails E cfg criteria st
        = (Ok emails, logged st (EvSearch criteria (Some nums) :: evs)) /\
        fetched_numbers evs = nums /\
        Forall is_search_or_fetch evs /\
        sublist (map uid emails) nums
  end.
Proof. apply get_new_emails_outcome. Qed.

(** Three unseen messages, of which the second cannot be fetched and the
    third cannot be decoded: the first is the only candidate. *)
Example one_candidate_of_three :
  get_new_emails Cases.three_messages Scenario.cfg "UNSEEN" Scenario.start
  = (Ok [Scenario.alice],
     logged Scenario.start
       [EvSearch "UNSEEN" (Some ["1"; "2"; "3"]);
        EvFetch "1" (Some Scenario.alice_message);
        EvFetch "2" None;
        EvFetch "3" (Some Cases.broken_message)]).
Proof. reflexivity. Qed.

Lemma blacklisted_by_empty_entry (cfg : config) (addr : string) :
  In "" (default [] (cfg_blacklist cfg)) -> blacklisted cfg addr = true.
Proof.
  intros Hin. unfold blacklisted. apply any_true_iff.
  exists "". split; [exact Hin | apply contains_empty].
Qed.

(** X8. An empty string among the blacklist entries occurs in every
    address: with such a blacklist no fetch ever returns a candidate. *)
Theorem empty_blacklist_entry_excludes_all
    (E : environment) (cfg : config) (criteria : string)
    (st st' : state) (emails : list email) :
  In "" (default [] (cfg_blacklist cfg)) ->
  get_new_emails E cfg criteria st = (Ok emails, st') ->
  emails = [].
Proof.
  intros Hin Hrun.
  apply get_new_emails_run in Hrun as [evs [_ ->]].
  induction (fetched_messages evs) as [|[num m] l IH]; [reflexivity|].
  simpl. unfold candidate at 1, read_message. simpl.
  rewrite (blacklisted_by_empty_entry cfg _ Hin). exact IH.
Qed.

Lemma empty_blacklist_entry_excludes_all_witness :
  In "" (default [] (cfg_blacklist (Scenario.cfg_blacklist_is ["spam"; ""])))
  /\
  get_new_emails Scenario.fine (Scenario.cfg_blacklist_is ["spam"; ""])
    "UNSEEN" Scenario.start
  = (Ok [],
     snd (get_new_emails Scenario.fine
            (Scenario.cfg_blacklist_is ["spam"; ""]) "UNSEEN"
            Scenario.start)) /\
  @nil email = [].
Proof.
  split; [right; left; reflexivity|]. split; [reflexivity|].
  exact (empty_blacklist_entry_excludes_all Scenario.fine
           (Scenario.cfg_blacklist_is ["spam"; ""]) "UNSEEN"
           Scenario.start _ [] (or_intror (or_introl eq_refl)) eq_refl).
Defined.

(** ** Stored drafts *)

Lemma stored_drafts_app (a b : list event) :
  stored_drafts (a ++ b) = stored_drafts a ++ stored_drafts b.
Proof.
  induction a as [|ev a IH]; [reflexivity|].
  destruct ev as [| | | mb fl d [|] | | | | | |]; simpl; rewrite IH;
    reflexivity.
Qed.

Lemma folder_attempts_stored (d : draft) (folders : list string)
    (evs : list event) (winner : option string) :
  folder_attempts d folders evs winner ->
  stored_drafts evs = match winner with
                      | Some folder => [(folder, d)]
                      | None => []
                      end /\
  forall folder, winner = Some folder -> In folder folders.
Proof.
  induction 1 as [| f fs evs w H [IH1 IH2] | f fs evs w H [IH1 IH2] | f fs];
    simpl.
  - split; [reflexivity | discriminate].
  - split; [exact IH1 | intros folder Hw; right; auto].
  - split; [exact IH1 | intros folder Hw; right; auto].
  - split; [reflexivity | intros folder [= <-]; left; reflexivity].
Qed.

Lemma save_draft_stored
    (E : environment) (cfg : config) (m : email) (response : string)
    (st : state) :
  exists evs,
    save_draft E cfg m response st = (Ok tt, logged st evs) /\
    length (stored_drafts evs) <= 1 /\
    Forall (fun md =>
              (In md.1 draft_folders \/ md.1 = "INBOX") /\
              md.2 = {| draft_to := sender m;
                        draft_from := cfg_email cfg;
                        draft_subject := "Re: " +:+ Py.str (subject m);
                        draft_content := response |})
           (stored_drafts evs).
Proof.
  destruct (save_draft_run E cfg m response st)
    as [attempts [winner [rest [Hrun [Hatt Hrest]]]]].
  exists (attempts ++ rest). split; [exact Hrun|].
  destruct (folder_attempts_stored _ _ _ _ Hatt) as [Hstored Hin].
  rewrite stored_drafts_app, Hstored.
  unfold after_attempts in Hrest. destruct winner as [folder|].
  - destruct Hrest as [ok ->]. simpl. split; [lia|].
    constructor; [|constructor].
    split; [left; apply Hin; reflexivity | reflexivity].
  - destruct Hrest as [-> | [-> | [ok ->]]]; simpl; (split; [lia|]).
    + constructor.
    + constructor.
    + constructor; [|constructor].
      split; [right; reflexivity | reflexivity].
Qed.

(** X9. [save_draft] stores the draft at most once: the server accepts at
    most one of its appends, in one of the four draft folders or in INBOX,
    and what it accepts is the reply to the sender, from the configured
    address, with the subject prefixed by "Re: " and the response as
    content. *)
Theorem save_draft_stores_at_most_once
    (E : environment) (cfg : config) (m : email) (response : string)
    (st : state) :
  exists evs,
    save_draft E cfg m response st = (Ok tt, logged st evs) /\
    length (stored_drafts evs) <= 1 /\
    Forall (fun md =>
              (In md.1 draft_folders \/ md.1 = "INBOX") /\
              md.2 = {| draft_to := sender m;
                        draft_from := cfg_email cfg;
                        draft_subject := "Re: " +:+ Py.str (subject m);
                        draft_content := response |})
           (stored_drafts evs).
Proof. apply save_draft_stored. Qed.

(** ** What a cycle does to the state *)

Lemma grown_refl (h : gmap string (list conversation)) : grown h h.
Proof. intros s. exists []. rewrite app_nil_r. split; [reflexivity | constructor]. Qed.

Lemma grown_trans (h1 h2 h3 : gmap string (list conversation)) :
  grown h1 h2 -> grown h2 h3 -> grown h1 h3.
Proof.
  intros H12 H23 s.
  destruct (H12 s) as [more1 [Heq1 Hall1]].
  destruct (H23 s) as [more2 [Heq2 Hall2]].
  exists (more1 ++ more2). split.
  - rewrite Heq2, Heq1, app_assoc. reflexivity.
  - apply Forall_app. auto.
Qed.

Lemma grown_insert (h : gmap string (list conversation)) (s : string)
    (conv : conversation) :
  usable (conv_response conv) = true ->
  grown h (<[s := default [] (h !! s) ++ [conv]]> h).
Proof.
  intros Huse s'. destruct (decide (s' = s)) as [->|Hne].
  - exists [conv]. rewrite lookup_insert_eq. simpl.
    split; [reflexivity | repeat constructor; exact Huse].
  - exists []. rewrite lookup_insert_ne by congruence.
    rewrite app_nil_r. split; [reflexivity | constructor].
Qed.

Section Cycle.
Context (E : environment) (cfg : config).

Local Abbreviation gen := (generate_response_anthropic E cfg).

(** One turn of the loop leaves the history as it is or adds one entry
    with a usable response for the sender of the e-mail. *)
Lemma process_email_state (m : email) (st : state) :
  exists st',
    process_email E cfg gen m st = (Ok tt, st') /\
    training_context st' = training_context st /\
    training_context_json (files st') = training_context_json (files st) /\
    (history st' = history st \/
     exists conv,
       usable (conv_response conv) = true /\
       conv_subject conv = subject m /\ conv_content conv = content m /\
       history st'
       = <[sender m := default [] (history st !! sender m) ++ [conv]]>
           (history st)).
Proof.
  destruct (generate_response_anthropic_run E cfg m st)
    as [response [evs_g [Hgen _]]].
  destruct (usable response) eqn:Huse.
  - destruct (save_draft_run E cfg m response (logged st evs_g))
      as [attempts [winner [rest [Hdraft _]]]].
    pose proof (update_history_run E m response
                  (logged (logged st evs_g) (attempts ++ rest))) as Hupd.
    cbv zeta in Hupd.
    unfold process_email, try_except. unfold bind at 1.
    rewrite Hgen, Huse. unfold bind at 1. rewrite Hdraft.
    unfold bind at 1. rewrite Hupd. clear Hupd.
    cbn [history training_context files log logged].
    destruct (write_history E _ _);
      [destruct (default true (cfg_mark_as_read cfg));
       [unfold mark_as_read; rewrite store_run;
        destruct (imap_store E _ (uid m))|]| |];
      (eexists; split; [reflexivity|]; split; [reflexivity|];
       split; [reflexivity|]; right;
       eexists {| conv_timestamp := _; conv_subject := subject m;
                  conv_content := content m; conv_response := response |};
       split; [exact Huse|]; split; [reflexivity|]; split; reflexivity).
  - exists (logged st evs_g).
    split; [apply (process_email_unusable E cfg gen m st _ response Hgen Huse)|].
    split; [reflexivity|]. split; [reflexivity|]. left. reflexivity.
Qed.

Lemma process_emails_state (emails : list email) (st : state) :
  exists st',
    process_emails E cfg gen emails st = (Ok tt, st') /\
    training_context st' = training_context st /\
    training_context_json (files st') = training_context_json (files st) /\
    grown (history st) (history st').
Proof.
  revert st. induction emails as [|m emails IH]; intros st.
  - exists st. split; [reflexivity|]. split; [reflexivity|].
    split; [reflexivity | apply grown_refl].
  - destruct (process_email_state m st) as [st1 [Hrun [Ht [Hf Hh]]]].
    destruct (IH st1) as [st2 [Hrest [Ht2 [Hf2 Hh2]]]].
    exists st2. cbn [process_emails]. unfold bind. rewrite Hrun.
    split; [exact Hrest|]. split; [congruence|]. split; [congruence|].
    eapply grown_trans; [|exact Hh2].
    destruct Hh as [-> | [conv [Huse [_ [_ ->]]]]];
      [apply grown_refl | apply grown_insert; exact Huse].
Qed.
End Cycle.

(** X10. A polling cycle of the base class always ends without an
    exception. It leaves the training context in memory and on disk as it
    is, and it only lengthens the history: every sequence keeps the entries
    it had, in their order, and every entry added has a response that is
    not empty and does not begin with "Error generating". *)
Theorem run_cycle_grows_history
    (E : environment) (cfg : config) (criteria : string) (st : state) :
  exists st',
    run_cycle E cfg (generate_response_anthropic E cfg) criteria st
    = (Ok tt, st') /\
    training_context st' = training_context st /\
    training_context_json (files st') = training_context_json (files st) /\
    grown (history st) (history st').
Proof.
  unfold run_cycle, try_except. unfold bind.
  pose proof (get_new_emails_outcome E cfg criteria st) as Hget.
  destruct (imap_search E (log st) criteria) as [nums|].
  - destruct Hget as [emails [evs [-> _]]].
    destruct (process_emails_state E cfg emails
                (logged st (EvSearch criteria (Some nums) :: evs)))
      as [st' [Hrun [Ht [Hf Hh]]]].
    exists st'. rewrite Hrun. auto.
  - rewrite Hget. eexists. split; [reflexivity|].
    split; [reflexivity|]. split; [reflexivity | apply grown_refl].
Qed.

(** X11. Without the name of the Claude model in the configuration the
    loop contacts no backend and does nothing at all for any e-mail: the
    state after the batch is the state before it. *)
Theorem no_model_name_processes_nothing
    (E : environment) (cfg : config) (emails : list email) (st : state) :
  cfg_claude_model_name cfg = None ->
  process_emails E cfg (generate_response_anthropic E cfg) emails st
  = (Ok tt, st).
Proof.
  intros Hnone. induction emails as [|m emails IH]; [reflexivity|].
  cbn [process_emails]. unfold bind.
  rewrite (process_email_unusable E cfg _ m st st error_response).
  - exact IH.
  - unfold generate_response_anthropic, try_except, request_anthropic,
      required, bind. rewrite Hnone. reflexivity.
  - reflexivity.
Qed.

Lemma no_model_name_processes_nothing_witness :
  process_emails Scenario.fine Cases.cfg_without_model
    (generate_response_anthropic Scenario.fine Cases.cfg_without_model)
    [Scenario.alice; Scenario.bob] Scenario.start
  = (Ok tt, Scenario.start).
Proof.
  exact (no_model_name_processes_nothing Scenario.fine
           Cases.cfg_without_model [Scenario.alice; Scenario.bob]
           Scenario.start eq_refl).
Defined.

(** X12. A reply of the Anthropic backend whose content is a list without
    any text item comes out of [generate_response] as the empty string, and
    the loop skips the message: nothing but the backend call was done. *)
Theorem reply_without_text_is_skipped
    (E : environment) (cfg : config) (m : email) (st : state)
    (model : string) (items : list content_item) :
  cfg_claude_model_name cfg = Some model ->
  (forall rq, anthropic_create E (log st) rq = Replies (ContentList items)) ->
  item_texts items = [] ->
  exists rq,
    generate_response_anthropic E cfg m st
    = (Ok "", logged st [EvAnthropic rq (Replies (ContentList items))]) /\
    process_email E cfg (generate_response_anthropic E cfg) m st
    = (Ok tt, logged st [EvAnthropic rq (Replies (ContentList items))]).
Proof.
  intros Hmodel Hreply Hitems.
  assert (exists rq,
             generate_response_anthropic E cfg m st
             = (Ok "", logged st
                         [EvAnthropic rq (Replies (ContentList items))]))
    as [rq Hgen].
  { unfold generate_response_anthropic, try_except, request_anthropic,
      required, make_request, call, emit, bind, get, ret.
    rewrite Hmodel. cbn. rewrite Hreply. cbn. rewrite Hitems.
    eexists. reflexivity. }
  exists rq. split; [exact Hgen|].
  apply (process_email_unusable E cfg _ m st _ "" Hgen). reflexivity.
Qed.

Lemma reply_without_text_is_skipped_witness :
  exists rq,
    generate_response_anthropic
      (Scenario.answering (Replies (ContentList [OtherItem])) (Replies []))
      Scenario.cfg Scenario.alice Scenario.start
    = (Ok "", logged Scenario.start
                [EvAnthropic rq (Replies (ContentList [OtherItem]))]) /\
    process_email
      (Scenario.answering (Replies (ContentList [OtherItem])) (Replies []))
      Scenario.cfg
      (generate_response_anthropic
         (Scenario.answering (Replies (ContentList [OtherItem]))
            (Replies []))
         Scenario.cfg)
      Scenario.alice Scenario.start
    = (Ok tt, logged Scenario.start
                [EvAnthropic rq (Replies (ContentList [OtherItem]))]).
Proof.
  exact (reply_without_text_is_skipped
           (Scenario.answering (Replies (ContentList [OtherItem]))
              (Replies []))
           Scenario.cfg Scenario.alice Scenario.start "claude" [OtherItem]
           eq_refl (fun _ => eq_refl) eq_refl).
Defined.

(** ** The loop of the OpenAI class *)

(** X13. In the loop of the OpenAI class a failure of the backend does not
    stop the turn: the error sentence is taken for the reply. Every draft
    the server accepts has it as content, and it is recorded as the
    response of a new history entry for the sender, whether or not the
    turn then raises. *)
Theorem openai_loop_records_error_sentence
    (E : environment) (cfg : config) (m : email) (st : state)
    (e : string) (st1 : state) :
  request_openai E cfg m st = (Raise e, st1) ->
  let st2 := snd (process_email_openai E cfg m st) in
  exists ts evs,
    history st2 !! sender m
    = Some (default [] (history st !! sender m)
              ++ [{| conv_timestamp := ts; conv_subject := subject m;
                     conv_content := content m;
                     conv_response := error_response |}]) /\
    log st2 = log st1 ++ evs /\
    Forall (fun md => draft_content md.2 = error_response)
           (stored_drafts evs).
Proof.
  intros Hfail. cbv zeta.
  assert (generate_response_openai E cfg m st = (Ok error_response, st1))
    as Hgen.
  { unfold generate_response_openai, try_except. rewrite Hfail.
    reflexivity. }
  destruct (request_openai_run E cfg m st) as [evs_o [Hst _]].
  rewrite Hfail in Hst. simpl in Hst. subst st1.
  destruct (save_draft_stored E cfg m error_response (logged st evs_o))
    as [evs_d [Hdraft [_ Hstored]]].
  pose proof (update_history_run E m error_response
                (logged (logged st evs_o) evs_d)) as Hupd.
  cbv zeta in Hupd.
  assert (Forall (fun md : string * draft =>
                    draft_content md.2 = error_response)
                 (stored_drafts evs_d)) as Hcontent.
  { eapply Forall_impl; [exact Hstored|].
    intros md [_ ->]. reflexivity. }
  destruct (process_email_openai E cfg m st) as [r st2] eqn:Hrun.
  cbn [snd].
  unfold process_email_openai in Hrun. unfold bind at 1 in Hrun.
  rewrite Hgen in Hrun. unfold bind at 1 in Hrun. rewrite Hdraft in Hrun.
  unfold bind at 1 in Hrun. rewrite Hupd in Hrun. clear Hupd.
  cbn [history log logged] in Hrun.
  destruct (write_history E _ _);
    [destruct (default true (cfg_mark_as_read cfg));
     [unfold mark_as_read in Hrun; rewrite store_run in Hrun;
      destruct (imap_store E _ (uid m))|]| |];
    injection Hrun as _ <-; cbn [history log logged];
    (eexists; eexists; split; [apply lookup_insert_eq|];
     split; [rewrite <- ?app_assoc; reflexivity|];
     rewrite ?stored_drafts_app; simpl; rewrite ?app_nil_r;
     exact Hcontent).
Qed.

Lemma openai_loop_records_error_sentence_witness :
  let E := Scenario.answering (BackendRaises "rate limit")
             (BackendRaises "rate limit") in
  let st2 := snd (process_email_openai E Scenario.cfg Scenario.alice
                    Scenario.start) in
  exists ts evs,
    history st2 !! "alice@example.com"
    = Some ([] ++ [{| conv_timestamp := ts; conv_subject := Some "Question";
                      conv_content := "How do I reset my password?";
                      conv_response := error_response |}]) /\
    log st2
    = log (snd (request_openai E Scenario.cfg Scenario.alice Scenario.start))
        ++ evs /\
    Forall (fun md => draft_content md.2 = error_response)
           (stored_drafts evs).
Proof.
  exact (openai_loop_records_error_sentence
           (Scenario.answering (BackendRaises "rate limit")
              (BackendRaises "rate limit"))
           Scenario.cfg Scenario.alice Scenario.start "rate limit" _
           eq_refl).
Defined.

(** ** The stand-alone script *)

(** X14. The history text of the stand-alone script is made of the entries
    of the given sender only: of the last five of them in the order of the
    list, or of all of them when there are fewer, each as subject and
    response, joined by empty lines. *)
Theorem standalone_history_last_five_of_sender
    (h : list Standalone.entry) (sender : string) :
  exists older recent,
    filter (fun conv => Standalone.entry_sender conv = sender) h
    = older ++ recent /\
    length recent
    = min 5 (length (filter (fun conv =>
                               Standalone.entry_sender conv = sender) h)) /\
    Forall (fun conv => Standalone.entry_sender conv = sender) recent /\
    Standalone._get_relevant_history h sender
    = String.concat (nl +:+ nl)
        (map (fun conv =>
                "Subject: " +:+ Py.str (Standalone.entry_subject conv)
                  +:+ nl +:+ "Response: " +:+ Standalone.entry_response conv)
             recent).
Proof.
  set (mine := filter (fun conv => Standalone.entry_sender conv = sender) h).
  destruct (slice_from_neg_suffix 5 mine) as [older [Hsplit Hlen]]; [lia|].
  exists older, (Py.slice_from (-5) mine).
  split; [exact Hsplit|]. split; [exact Hlen|]. split; [|reflexivity].
  assert (Forall (fun conv => Standalone.entry_sender conv = sender) mine)
    as Hall.
  { apply Forall_forall. intros conv Hin.
    apply list_elem_of_filter in Hin as [Hs _]. exact Hs. }
  rewrite Hsplit in Hall. apply Forall_app in Hall as [_ Hall]. exact Hall.
Qed.

Lemma standalone_scan_extends (ps : list part) (acc t : string) :
  Standalone.scan_parts ps acc = Ok t -> exists r, t = acc +:+ r.
Proof.
  revert acc. induction ps as [|p ps IH]; intros acc; simpl.
  - intros [= <-]. exists "". symmetry. apply append_empty_r.
  - destruct (String.eqb (get_content_type p) "text/plain"); [|apply IH].
    destruct (payload_decode p) as [x|]; [|discriminate].
    intros Hscan. apply IH in Hscan as [r ->].
    exists (x +:+ r). apply append_assoc.
Qed.

Lemma standalone_scan_starts_with_first (ps : list part) (t : string) :
  Standalone.scan_parts ps "" = Ok t ->
  exists s r, scan_parts ps "" = Ok s /\ t = s +:+ r.
Proof.
  induction ps as [|p ps IH]; simpl.
  - intros [= <-]. exists "", "". split; reflexivity.
  - destruct (String.eqb (get_content_type p) "text/plain"); [|exact IH].
    destruct (payload_decode p) as [x|]; [|discriminate].
    intros Hscan. apply standalone_scan_extends in Hscan as [r ->].
    exists x, r. split; reflexivity.
Qed.

(** X15. Whenever the stand-alone script extracts a body from a message,
    the class extracts one too, and the body of the class is the beginning
    of the body of the script: the script goes on to add the later
    plain-text parts. *)
Theorem class_body_begins_script_body (body : part) (t : string) :
  Standalone.extract_content body = Ok t ->
  exists s r, extract_content body = Ok s /\ t = s +:+ r.
Proof.
  unfold Standalone.extract_content, extract_content.
  destruct (is_multipart body).
  - apply standalone_scan_starts_with_first.
  - intros ->. exists t, "". split; [reflexivity|].
    symmetry. apply append_empty_r.
Qed.

Lemma class_body_begins_script_body_witness :
  exists s r,
    extract_content Scenario.newsletter = Ok s /\
    "HelloUnsubscribe" = s +:+ r.
Proof.
  exact (class_body_begins_script_body Scenario.newsletter
           "HelloUnsubscribe" eq_refl).
Defined.

(** ** The service *)

Lemma check_required_ok (fields : list string) (config : gset string) :
  Service.check_required fields config = Ok tt <->
  Forall (fun field => field ∈ config) fields.
Proof.
  induction fields as [|field fields IH]; simpl.
  - split; [constructor | reflexivity].
  - destruct (decide (field ∈ config)) as [Hin | Hout].
    + rewrite IH. split; [intros H; constructor; assumption|].
      intros H. apply Forall_cons in H as [_ H]. exact H.
    + split; [discriminate|].
      intros H. apply Forall_cons in H as [H _]. contradiction.
Qed.

(** The first field that is missing is the one reported. *)
Lemma check_required_reports_first (present fields : list string)
    (field : string) (config : gset string) :
  Forall (fun f => f ∈ config) present -> field ∉ config ->
  Service.check_required (present ++ field :: fields) config
  = Raise ("Missing required configuration: " +:+ field).
Proof.
  intros Hpresent Hmissing. induction Hpresent as [|f present Hf _ IH]; simpl.
  - rewrite decide_False by exact Hmissing. reflexivity.
  - rewrite decide_True by exact Hf. exact IH.
Qed.

Lemma validate_config_accepts_iff (config : gset string) :
  Service.validate_config config = Ok tt <->
  ("email" ∈ config /\ "password" ∈ config /\ "imap_server" ∈ config) /\
  ("openai_model_name" ∈ config -> "openai_api_key" ∈ config) /\
  ("claude_model_name" ∈ config -> "anthropic_api_key" ∈ config) /\
  ("gemini_model_name" ∈ config -> "google_api_key" ∈ config).
Proof.
  unfold Service.validate_config.
  destruct (Service.check_required Service.required_fields config)
    as [[]|e] eqn:Hreq.
  - apply check_required_ok in Hreq.
    apply Forall_cons in Hreq as [He Hreq].
    apply Forall_cons in Hreq as [Hp Hreq].
    apply Forall_cons in Hreq as [Hi _].
    repeat case_decide.
    + split; [discriminate|]. intros [_ [Ho _]]. tauto.
    + split; [discriminate|]. intros [_ [_ [Hc _]]]. tauto.
    + split; [discriminate|]. intros [_ [_ [_ Hg]]]. tauto.
    + split; [intros _|reflexivity].
      split; [auto|].
      repeat split; intros Hm;
        match goal with
        | |- ?k ∈ config =>
            destruct (decide (k ∈ config)) as [Hk|Hk]; [exact Hk | tauto]
        end.
  - split; [discriminate|]. intros [[He [Hp Hi]] _].
    assert (Service.check_required Service.required_fields config = Ok tt)
      as Hok.
    { apply check_required_ok. repeat constructor; assumption. }
    congruence.
Qed.

Lemma validate_config_accepts_keys (config : gset string) :
  Service.validate_config config = Ok tt ->
  ("email" ∈ config /\ "password" ∈ config /\ "imap_server" ∈ config) /\
  ("openai_model_name" ∈ config -> "openai_api_key" ∈ config) /\
  ("claude_model_name" ∈ config -> "anthropic_api_key" ∈ config) /\
  ("gemini_model_name" ∈ config -> "google_api_key" ∈ config).
Proof. apply validate_config_accepts_iff. Qed.

(** X16. [validate_config] accepts a configuration exactly when it has the
    keys email, password and imap_server and, for each model name it has,
    the API key that goes with it. A configuration without any model name
    is accepted. *)
Theorem validate_config_accepts (config : gset string) :
  Service.validate_config config = Ok tt <->
  ("email" ∈ config /\ "password" ∈ config /\ "imap_server" ∈ config) /\
  ("openai_model_name" ∈ config -> "openai_api_key" ∈ config) /\
  ("claude_model_name" ∈ config -> "anthropic_api_key" ∈ config) /\
  ("gemini_model_name" ∈ config -> "google_api_key" ∈ config).
Proof. apply validate_config_accepts_iff. Qed.

(** The error of a configuration without password names the password,
    whatever else is wrong with it. *)
Example missing_password_is_reported :
  Service.validate_config {["email"; "openai_model_name"]}
  = Raise "Missing required configuration: password".
Proof. reflexivity. Qed.

Lemma choose_assistant_cases (config : gset string)
    (a : Service.assistant_class) :
  Service.choose_assistant config = Ok a ->
  match a with
  | Service.OpenAIEmailAssistant => "openai_model_name" ∈ config
  | Service.ClaudeEmailAssistant =>
      ("openai_model_name" ∉ config) /\ "claude_model_name" ∈ config
  | Service.GeminiEmailAssistant =>
      ("openai_model_name" ∉ config) /\ ("claude_model_name" ∉ config) /\
      "gemini_model_name" ∈ config
  end.
Proof.
  unfold Service.choose_assistant. repeat case_decide; intros [= <-]; auto.
Qed.

(** X17. When the service gets as far as choosing an assistant class, the
    configuration was read and has the keys email, password and
    imap_server and the API key of the chosen class; the OpenAI class is
    chosen whenever its model name is there, the Claude class only without
    it, the Gemini class only without both. *)
Theorem main_start_class_has_its_key
    (file : result (gset string)) (a : Service.assistant_class) :
  Service.main_start file = Ok a ->
  exists config,
    file = Ok config /\
    "email" ∈ config /\ "password" ∈ config /\ "imap_server" ∈ config /\
    Service.api_key_of a ∈ config /\
    match a with
    | Service.OpenAIEmailAssistant => "openai_model_name" ∈ config
    | Service.ClaudeEmailAssistant =>
        ("openai_model_name" ∉ config) /\ "claude_model_name" ∈ config
    | Service.GeminiEmailAssistant =>
        ("openai_model_name" ∉ config) /\ ("claude_model_name" ∉ config) /\
        "gemini_model_name" ∈ config
    end.
Proof.
  unfold Service.main_start, Service.load_config.
  destruct file as [config|e]; [|discriminate].
  destruct (Service.validate_config config) as [[]|e] eqn:Hval;
    [|discriminate].
  intros Hchoose. apply choose_assistant_cases in Hchoose.
  apply validate_config_accepts_keys in Hval
    as [[He [Hp Hi]] [Ho [Hc Hg]]].
  exists config. split; [reflexivity|].
  repeat (split; [assumption|]).
  destruct a; simpl in *.
  - split; [apply Ho; exact Hchoose | exact Hchoose].
  - split; [apply Hc; tauto | exact Hchoose].
  - split; [apply Hg; tauto | exact Hchoose].
Qed.

Lemma main_start_class_has_its_key_witness :
  exists config,
    Ok Cases.claude_keys = Ok config /\
    "email" ∈ config /\ "password" ∈ config /\ "imap_server" ∈ config /\
    "anthropic_api_key" ∈ config /\
    ("openai_model_name" ∉ config) /\ "claude_model_name" ∈ config.
Proof.
  exact (main_start_class_has_its_key (Ok Cases.claude_keys)
           Service.ClaudeEmailAssistant eq_refl).
Defined.

(** A call of the handler after the first only returns. *)
Lemma deliver_when_called (has_imap : bool) (signals : list bool)
    (h : Service.handler) :
  Service.called h = true ->
  Service.deliver has_imap signals h
  = (repeat Service.Returns (length signals), h).
Proof.
  intros Hcalled. induction signals as [|s signals IH]; [reflexivity|].
  simpl. unfold Service.shutdown_handler. rewrite Hcalled, IH. reflexivity.
Qed.

(** X18. Of any number of termination signals only the first has an
    effect: its call of the handler sends one logout, if there is a
    connection, and exits with status 0 whether or not the logout
    succeeded; every later call returns at once and sends nothing. *)
Theorem shutdown_happens_once
    (has_imap logout_ok : bool) (later : list bool) :
  Service.deliver has_imap (logout_ok :: later)
    {| Service.called := false; Service.logouts := [] |}
  = (Service.Exits 0 :: repeat Service.Returns (length later),
     {| Service.called := true;
        Service.logouts := if has_imap then [logout_ok] else [] |}).
Proof.
  cbn [Service.deliver]. unfold Service.shutdown_handler at 1.
  cbn [Service.called Service.logouts].
  rewrite deliver_when_called by reflexivity.
  destruct has_imap; reflexivity.
Qed.

(** ** Start-up *)

Lemma load_history_in_step (E : environment) (st st1 : state) :
  load_history E st = (Ok tt, st1) ->
  conversation_history_json (files st1) = Some (Document (history st1)) /\
  training_context_json (files st1) = training_context_json (files st) /\
  training_context st1 = training_context st /\
  exists evs, log st1 = log st ++ evs /\ Forall is_write evs.
Proof.
  unfold load_history, bind, get.
  destruct (conversation_history_json (files st)) as [[h|]|] eqn:Hfile.
  - intros [= <-]. cbn. split; [exact Hfile|]. repeat split.
    exists []. rewrite app_nil_r. split; [reflexivity | constructor].
  - discriminate.
  - unfold set_history. rewrite save_history_run. cbv zeta.
    cbn [history training_context files log].
    destruct (write_history E _ _); try discriminate.
    intros [= <-]. cbn. repeat split.
    eexists. split; [reflexivity | repeat constructor].
Qed.

Lemma load_training_context_in_step
    (E : environment) (cfg : config) (st st1 : state) :
  load_training_context E cfg st = (Ok tt, st1) ->
  training_context_json (files st1)
  = Some (Document (training_context st1)) /\
  conversation_history_json (files st1)
  = conversation_history_json (files st) /\
  history st1 = history st /\
  exists evs, log st1 = log st ++ evs /\ Forall is_write evs.
Proof.
  unfold load_training_context, bind, get.
  destruct (training_context_json (files st)) as [[t|]|] eqn:Hfile.
  - intros [= <-]. cbn. split; [exact Hfile|]. repeat split.
    exists []. rewrite app_nil_r. split; [reflexivity | constructor].
  - discriminate.
  - unfold set_training_context. rewrite save_training_context_run.
    cbv zeta. cbn [history training_context files log].
    destruct (write_training E _ _); try discriminate.
    intros [= <-]. cbn. repeat split.
    eexists. split; [reflexivity | repeat constructor].
Qed.

Lemma selected_mailbox_writes (evs : list event) :
  Forall is_write evs -> selected_mailbox evs = None.
Proof.
  induction 1 as [|ev evs Hev _ IH]; [reflexivity|].
  simpl. rewrite IH. destruct ev; try contradiction; reflexivity.
Qed.



(** ** Candidates, the other way round *)

Lemma candidate_acceptable (cfg : config) (nm : string * message) :
  match candidate cfg nm with
  | Some e =>
      acceptable cfg nm.2 = true /\
      uid e = nm.1 /\ sender e = msg_from nm.2 /\
      subject e = msg_subject nm.2 /\
      first_plain_text (msg_body nm.2) = Ok (content e)
  | None => acceptable cfg nm.2 = false
  end.
Proof.
  destruct nm as [num m]. unfold candidate, read_message, acceptable.
  cbn [fst snd]. rewrite extract_content_first_plain_text.
  destruct (blacklisted cfg (msg_from m)); [reflexivity|].
  destruct (msg_reply_to m) as [r|]; cbn [negb andb].
  - destruct (Py.truthy r && blacklisted cfg r); [reflexivity|].
    destruct (first_plain_text (msg_body m)); cbn; auto.
  - destruct (first_plain_text (msg_body m)); cbn; auto.
Qed.

Lemma omap_candidate_filter (cfg : config) (l : list (string * message)) :
  Forall2 (fun e nm =>
             uid e = nm.1 /\ sender e = msg_from nm.2 /\
             subject e = msg_subject nm.2 /\
             first_plain_text (msg_body nm.2) = Ok (content e))
          (omap (candidate cfg) l)
          (filter (fun nm => acceptable cfg nm.2 = true) l).
Proof.
  induction l as [|nm l IH]; [constructor|].
  pose proof (candidate_acceptable cfg nm) as Hc.
  simpl. rewrite filter_cons.
  destruct (candidate cfg nm) as [e|].
  - destruct Hc as [Hacc Hfields].
    rewrite decide_True by exact Hacc. constructor; assumption.
  - rewrite decide_False by congruence. exact IH.
Qed.



(** ** Calls per cycle *)

Lemma count_events_app (p : event -> bool) (a b : list event) :
  count_events p (a ++ b) = count_events p a + count_events p b.
Proof.
  induction a as [|ev a IH]; [reflexivity|].
  simpl. rewrite IH. lia.
Qed.

Lemma count_events_none (p : event -> bool) (evs : list event) :
  Forall (fun ev => p ev = false) evs -> count_events p evs = 0.
Proof.
  induction 1 as [|ev evs Hev _ IH]; [reflexivity|].
  simpl. rewrite Hev, IH. reflexivity.
Qed.

Lemma mailbox_commands_not_counted (evs : list event) :
  Forall is_mailbox_command evs ->
  count_events backend_call evs = 0 /\
  count_events record_written evs = 0 /\
  count_events flag_command evs = 0.
Proof.
  intros Hall. repeat split; apply count_events_none;
    (eapply Forall_impl; [exact Hall|]); intros ev Hev;
    destruct ev; try contradiction; reflexivity.
Qed.

Section Counting.
Context (E : environment) (cfg : config).

Local Abbreviation gen := (generate_response_anthropic E cfg).

(** [generate_response] calls the backend once, or not at all without a
    model name. *)
Lemma generate_response_anthropic_calls (m : email) (st : state) :
  exists response evs,
    gen m st = (Ok response, logged st evs) /\
    match cfg_claude_model_name cfg with
    | Some _ => exists rq r, evs = [EvAnthropic rq r]
    | None => evs = [] /\ response = error_response
    end.
Proof.
  unfold generate_response_anthropic, try_except, request_anthropic,
    required, make_request, call, emit, bind, get, ret, raise.
  destruct (cfg_claude_model_name cfg) as [model|]; cbn.
  - match goal with
    | |- context [anthropic_create E ?l ?rq] =>
        destruct (anthropic_create E l rq)
          as [[items | repr | [s|]] | err] eqn:Hr
    end; cbn; (do 2 eexists; split; [reflexivity|]; eauto).
  - exists error_response, []. rewrite logged_nil. auto.
Qed.

Lemma process_email_counts (m : email) (st : state) :
  exists st' evs,
    process_email E cfg gen m st = (Ok tt, st') /\
    log st' = log st ++ evs /\
    count_events backend_call evs
    = match cfg_claude_model_name cfg with Some _ => 1 | None => 0 end /\
    count_events flag_command evs <= count_events record_written evs /\
    count_events record_written evs <= count_events backend_call evs /\
    (cfg_mark_as_read cfg = Some false ->
     count_events flag_command evs = 0).
Proof.
  destruct (generate_response_anthropic_calls m st)
    as [response [evs_g [Hgen Hcalls]]].
  assert (count_events backend_call evs_g
          = match cfg_claude_model_name cfg with Some _ => 1 | None => 0 end /\
          count_events record_written evs_g = 0 /\
          count_events flag_command evs_g = 0) as [Hb [Hr Hf]].
  { destruct (cfg_claude_model_name cfg).
    - destruct Hcalls as [rq [r ->]]. repeat split.
    - destruct Hcalls as [-> _]. repeat split. }
  destruct (usable response) eqn:Huse.
  - destruct (process_email_usable E cfg gen m st _ response Hgen Huse)
      as [attempts [winner [rest [h [w [Hatt [Hrest
            [st' [Hrun [ts [ok Hlog]]]]]]]]]]].
    destruct (mailbox_commands_not_counted _
                (folder_attempts_mailbox _ _ _ _ Hatt)) as [Ha1 [Ha2 Ha3]].
    destruct (mailbox_commands_not_counted _
                (after_attempts_mailbox _ _ _ Hrest)) as [Hr1 [Hr2 Hr3]].
    assert (cfg_claude_model_name cfg <> None) as Hmodel.
    { intros Hnone. rewrite Hnone in Hcalls. destruct Hcalls as [_ ->].
      discriminate. }
    exists st'. eexists. split; [exact Hrun|].
    split; [rewrite Hlog; cbn [log logged]; rewrite <- app_assoc;
            reflexivity|].
    rewrite !count_events_app, Hb, Hr, Hf, Ha1, Ha2, Ha3, Hr1, Hr2, Hr3.
    destruct (cfg_claude_model_name cfg); [|congruence].
    destruct w; cbn.
    + destruct (cfg_mark_as_read cfg) as [[|]|]; cbn;
        repeat split; try lia; discriminate.
    + repeat split; lia.
    + repeat split; lia.
  - exists (logged st evs_g), evs_g.
    split; [apply (process_email_unusable E cfg gen m st _ response Hgen
                     Huse)|].
    split; [reflexivity|]. rewrite Hb, Hr, Hf.
    repeat split; lia.
Qed.
End Counting.

(** X21. In a batch of the base loop the backend is called once for each
    e-mail, in no case twice, and not at all without a model name in the
    configuration; there are at most as many history records written as
    backend calls, and at most as many flag commands as records written;
    with mark_as_read switched off there is no flag command. *)
Theorem batch_calls_backend_once_per_email
    (E : environment) (cfg : config) (emails : list email) (st : state) :
  exists st' evs,
    process_emails E cfg (generate_response_anthropic E cfg) emails st
    = (Ok tt, st') /\
    log st' = log st ++ evs /\
    count_events backend_call evs
    = match cfg_claude_model_name cfg with
      | Some _ => length emails
      | None => 0
      end /\
    count_events flag_command evs <= count_events record_written evs /\
    count_events record_written evs <= count_events backend_call evs /\
    (cfg_mark_as_read cfg = Some false ->
     count_events flag_command evs = 0).
Proof.
  revert st. induction emails as [|m emails IH]; intros st.
  - exists st, []. rewrite app_nil_r.
    split; [reflexivity|]. split; [reflexivity|].
    destruct (cfg_claude_model_name cfg); repeat split; simpl; lia.
  - destruct (process_email_counts E cfg m st)
      as [st1 [evs1 [Hrun [Hlog [Hb [Hf [Hr Hm]]]]]]].
    destruct (IH st1) as [st2 [evs2 [Hrest [Hlog2 [Hb2 [Hf2 [Hr2 Hm2]]]]]]].
    exists st2, (evs1 ++ evs2).
    cbn [process_emails]. unfold bind. rewrite Hrun.
    split; [exact Hrest|].
    split; [rewrite Hlog2, Hlog, app_assoc; reflexivity|].
    rewrite !count_events_app, Hb, Hb2.
    split; [destruct (cfg_claude_model_name cfg); simpl; lia|].
    split; [lia|]. split.
    + rewrite Hb in Hr. rewrite Hb2 in Hr2.
      destruct (cfg_claude_model_name cfg); lia.
    + intros Hoff. rewrite (Hm Hoff), (Hm2 Hoff). reflexivity.
Qed.


Lemma batch_calls_backend_once_per_email_witness :
  exists st' evs,
    process_emails Scenario.fine Scenario.cfg_keep_unread
      (generate_response_anthropic Scenario.fine Scenario.cfg_keep_unread)
      [Scenario.alice; Scenario.bob] Scenario.start
    = (Ok tt, st') /\
    log st' = log Scenario.start ++ evs /\
    count_events backend_call evs = 2 /\
    count_events flag_command evs = 0.
Proof.
  destruct (batch_calls_backend_once_per_email Scenario.fine
              Scenario.cfg_keep_unread [Scenario.alice; Scenario.bob]
              Scenario.start)
    as [st' [evs [Hrun [Hlog [Hb [_ [_ Hoff]]]]]]].
  exists st', evs. split; [exact Hrun|]. split; [exact Hlog|].
  split; [exact Hb | exact (Hoff eq_refl)].
Defined.
